(** * aimakerspace: the chunk splitter, the similarity metrics and the
      in-memory vector database

    A shallow embedding of [aimakerspace/text_utils.py]
    ([CharacterTextSplitter]) and of [aimakerspace/vectordatabase.py]
    (the four similarity metrics and [VectorDatabase]).

    Conventions of the embedding.
    - Python [int] is [Z]; [str] is [string]; a [list] is a [list].
    - A numpy vector is a [list float] of binary64 numbers, with the
      arithmetic and the comparisons of IEEE 754: rounding, infinities,
      signed zeros and NaN are those of the program.  A sum runs from the
      first element to the last.
    - A [dict] keeps its keys in insertion order and the search iterates
      over it, so the store is an association list with one entry per key.
    - A method of [VectorDatabase] is a computation in the monad [M]: it
      takes the object, and gives back a value or a raised exception
      together with the object as the call left it. *)

From Stdlib Require Import List ZArith Lia String Ascii Bool Arith.
From Stdlib Require Import Floats Permutation Sorted.
Import ListNotations.

Set Implicit Arguments.

(** ** Python values the two files rely on *)

Module Py.

(** The exceptions that the modelled code can raise. [ProviderError]
    stands for whatever the embedding client raises. *)
Inductive exn : Type :=
| AssertionError
| ValueError
| ProviderError.

Definition result (A : Type) : Type := (exn + A)%type.

(** Normalisation of one bound of a slice over a sequence of [len]
    items: a negative bound counts from the end, and every bound is
    clamped to [0 .. len]. *)
Definition slice_bound (len : nat) (i : Z) : nat :=
  if (i <? 0)%Z
  then Z.to_nat (Z.max 0 (i + Z.of_nat len))
  else Nat.min (Z.to_nat i) len.

(** [l[lo:hi]] on a list. *)
Definition slice {A : Type} (l : list A) (lo hi : Z) : list A :=
  let a := slice_bound (List.length l) lo in
  let b := slice_bound (List.length l) hi in
  firstn (b - a) (skipn a l).

(** [l[:hi]]: the missing lower bound is 0. *)
Definition slice_to {A : Type} (l : list A) (hi : Z) : list A :=
  slice l 0 hi.

(** [s[lo:hi]] on a string. *)
Definition str_slice (s : string) (lo hi : Z) : string :=
  let a := slice_bound (String.length s) lo in
  let b := slice_bound (String.length s) hi in
  substring a (b - a) s.

(** [range(0, stop, step)] for [stop >= 0], as the list of its values.
    A zero step raises [ValueError]; a negative step gives no value. *)
Fixpoint range_from (n : nat) (start step : Z) : list Z :=
  match n with
  | O => []
  | S n' => start :: range_from n' (start + step) step
  end.

Definition range_count (stop step : Z) : nat :=
  Z.to_nat ((stop + step - 1) / step).

Definition range0 (stop step : Z) : result (list Z) :=
  if (step =? 0)%Z then inl ValueError
  else if (step <? 0)%Z then inr []
  else inr (range_from (range_count stop step) 0 step).

(** [sorted(l, key=key, reverse=reverse)].  The builtin is a stable
    sort that compares keys with [<] only; with [reverse=True] it
    reverses the list, sorts it the same stable way, and reverses the
    outcome, which is what keeps the first of two equal items first.
    Where [<] orders the keys, every stable sort gives the same list.
    Where it does not (a NaN key compares false with every key), the
    builtin places an item by the comparisons it happens to make; the
    model inserts each item before the first item that is not below
    it. *)
Section Sorted.
Variables (A K : Type).
Variable ltb : K -> K -> bool.
Variable key : A -> K.

Fixpoint insert_stable (x : A) (l : list A) : list A :=
  match l with
  | [] => [x]
  | y :: l' =>
      if ltb (key y) (key x) then y :: insert_stable x l'
      else x :: y :: l'
  end.

Fixpoint sort_stable (l : list A) : list A :=
  match l with
  | [] => []
  | x :: l' => insert_stable x (sort_stable l')
  end.

Definition sorted (reverse : bool) (l : list A) : list A :=
  if reverse then rev (sort_stable (rev l)) else sort_stable l.

(** [x] may stand before [y] in an ascending list: [y < x] is false. *)
Definition asc (x y : A) : Prop := ltb (key y) (key x) = false.
(** [x] may stand before [y] in a descending list: [x < y] is false. *)
Definition desc (x y : A) : Prop := ltb (key x) (key y) = false.
End Sorted.

(** [x] comes before [y] in [l]. *)
Definition before {A : Type} (x y : A) (l : list A) : Prop :=
  exists l1 l2 l3 : list A, l = l1 ++ x :: l2 ++ y :: l3.

(** A [dict] with string keys, in insertion order. *)
Section Dict.
Variable V : Type.

Definition dict : Type := list (string * V).

(** [d[k] = v]: an existing key keeps its place. *)
Fixpoint dict_set (k : string) (v : V) (d : dict) : dict :=
  match d with
  | [] => [(k, v)]
  | (k', v') :: d' =>
      if String.eqb k k' then (k, v) :: d'
      else (k', v') :: dict_set k v d'
  end.

(** [d.get(k, None)]. *)
Fixpoint dict_get (k : string) (d : dict) : option V :=
  match d with
  | [] => None
  | (k', v') :: d' => if String.eqb k k' then Some v' else dict_get k d'
  end.

(** [d.items()]. *)
Definition dict_items (d : dict) : list (string * V) := d.
End Dict.

End Py.

Import Py.

(** ** text_utils.py: CharacterTextSplitter *)

Module TextUtils.

Record CharacterTextSplitter : Type := mkSplitter {
  chunk_size : Z;
  chunk_overlap : Z
}.

(** [CharacterTextSplitter.__init__]: the assertion, then the two
    attributes. *)
Definition init (size overlap : Z) : result CharacterTextSplitter :=
  if (size >? overlap)%Z then inr (mkSplitter size overlap)
  else inl AssertionError.

(** [CharacterTextSplitter.split]. *)
Definition split (self : CharacterTextSplitter) (text : string)
  : result (list string) :=
  match range0 (Z.of_nat (String.length text))
               (chunk_size self - chunk_overlap self) with
  | inl e => inl e
  | inr starts =>
      inr (map (fun i => str_slice text i (i + chunk_size self)) starts)
  end.

(** The offset in the text at which the chunk of index [c] is cut:
    the value of index [c] of the [range]. *)
Definition chunk_start (self : CharacterTextSplitter) (c : nat) : Z :=
  Z.of_nat c * (chunk_size self - chunk_overlap self).

(** The character of index [j] of [text] lies in one of the chunks:
    some chunk is the piece of [text] that starts at its own offset, and
    [j] falls inside that piece. *)
Definition covered (self : CharacterTextSplitter) (text : string)
    (chunks : list string) (j : nat) : Prop :=
  exists (c : nat) (chunk : string),
    nth_error chunks c = Some chunk /\
    (chunk_start self c <= Z.of_nat j
       < chunk_start self c + Z.of_nat (String.length chunk))%Z /\
    substring (Z.to_nat (chunk_start self c)) (String.length chunk) text
      = chunk.

Definition covers (self : CharacterTextSplitter) (text : string)
    (chunks : list string) : Prop :=
  forall j : nat, j < String.length text -> covered self text chunks j.

(** The last chunk stops where the text stops. *)
Definition ends_at_end (self : CharacterTextSplitter) (text : string)
    (chunks : list string) : Prop :=
  forall (c : nat) (chunk : string),
    nth_error chunks c = Some chunk ->
    S c = List.length chunks ->
    (chunk_start self c + Z.of_nat (String.length chunk)
       = Z.of_nat (String.length text))%Z.

(** [CharacterTextSplitter.split_texts]: the chunks of each text, in
    the order of the texts; the first [split] that raises stops the
    loop. *)
Fixpoint split_texts (self : CharacterTextSplitter) (texts : list string)
  : result (list string) :=
  match texts with
  | [] => inr []
  | text :: rest =>
      match split self text with
      | inl e => inl e
      | inr chunks =>
          match split_texts self rest with
          | inl e => inl e
          | inr more => inr (chunks ++ more)
          end
      end
  end.

(** The texts of a list put end to end. *)
Definition join (parts : list string) : string :=
  fold_right append EmptyString parts.

(** The first [n] characters of a chunk, [chunk[:n]]. *)
Definition stride_of (n : Z) (chunk : string) : string :=
  str_slice chunk 0 n.

(** [x in s] on strings. *)
Definition str_contains (x s : string) : bool :=
  match index 0 x s with
  | Some _ => true
  | None => false
  end.

(** [s.lower()] on a text of ASCII characters. *)
Definition ascii_lower (c : ascii) : ascii :=
  let n := nat_of_ascii c in
  if andb (65 <=? n) (n <=? 90) then ascii_of_nat (n + 32) else c.

Fixpoint str_lower (s : string) : string :=
  match s with
  | EmptyString => EmptyString
  | String c s' => String (ascii_lower c) (str_lower s')
  end.

(** [tiktoken] is a library outside the repository.  An encoding is what
    its [encode] gives for a text: the tokens, or an exception; the module
    is its [get_encoding], or absent when the import failed. *)
Record Encoding : Type := mkEncoding {
  encode : string -> result (list Z)
}.

Definition tiktoken_module : Type := option (string -> result Encoding).

Record TokenCounter : Type := mkTokenCounter {
  model_name : string;
  _encoding : option Encoding
}.

(** [TokenCounter.__init__]. *)
Definition TokenCounter_init (tiktoken : tiktoken_module)
    (model_name : string) : TokenCounter :=
  match tiktoken with
  | None => mkTokenCounter model_name None
  | Some get_encoding =>
      let enc_name :=
        if existsb (fun x => str_contains x (str_lower model_name))
                   ["4.1"; "4o"; "o-"; "gpt-4o"]%string
        then "o200k_base"%string else "cl100k_base"%string in
      match get_encoding enc_name with
      | inr enc => mkTokenCounter model_name (Some enc)
      | inl _ =>
          match get_encoding "cl100k_base"%string with
          | inr enc => mkTokenCounter model_name (Some enc)
          | inl _ => mkTokenCounter model_name None
          end
      end
  end.

(** [TokenCounter.count]: the number of tokens, 0 when [encode] raises,
    and [None], the value of a function that ends without [return], when
    there is no encoding. *)
Definition count (self : TokenCounter) (text : string) : option Z :=
  match _encoding self with
  | Some enc =>
      match encode enc text with
      | inr tokens => Some (Z.of_nat (List.length tokens))
      | inl _ => Some 0%Z
      end
  | None => None
  end.

(** The exception of [total += None]. *)
Inductive count_exn : Type := TypeError.

(** [TokenCounter.count_messages], on messages whose fields are texts:
    [m.get("content", "")] is counted for each message in turn. *)
Fixpoint count_messages_from (self : TokenCounter)
    (messages : list (dict string)) (total : Z) : count_exn + Z :=
  match messages with
  | [] => inr total
  | m :: rest =>
      let content :=
        match dict_get "content"%string m with
        | Some c => c
        | None => EmptyString
        end in
      match count self content with
      | Some n => count_messages_from self rest (total + n)%Z
      | None => inl TypeError
      end
  end.

Definition count_messages (self : TokenCounter)
    (messages : list (dict string)) : count_exn + Z :=
  count_messages_from self messages 0%Z.

End TextUtils.

(** ** vectordatabase.py: the similarity metrics *)

Module Metrics.

Local Open Scope float_scope.

Definition vector : Type := list float.

(** [np.sum] of a vector. *)
Definition np_sum (a : vector) : float := fold_left add a 0.

(** [np.dot] of two vectors of one length. *)
Definition np_dot (a b : vector) : float :=
  np_sum (map (fun p => fst p * snd p) (combine a b)).

(** [a - b], element by element. *)
Definition np_sub (a b : vector) : vector :=
  map (fun p => fst p - snd p) (combine a b).

(** [np.abs], element by element. *)
Definition np_abs (a : vector) : vector := map abs a.

(** [np.linalg.norm], the L2 norm: the square root of [x.dot(x)]. *)
Definition np_norm (a : vector) : float := sqrt (np_dot a a).

Definition cosine_similarity (vector_a vector_b : vector) : float :=
  let dot_product := np_dot vector_a vector_b in
  let norm_a := np_norm vector_a in
  let norm_b := np_norm vector_b in
  dot_product / (norm_a * norm_b).

Definition dot_product_similarity (vector_a vector_b : vector) : float :=
  np_dot vector_a vector_b.

Definition euclidean_similarity (vector_a vector_b : vector) : float :=
  - np_norm (np_sub vector_a vector_b).

Definition manhattan_similarity (vector_a vector_b : vector) : float :=
  - np_sum (np_abs (np_sub vector_a vector_b)).

(** The names of [DISTANCE_METRICS]. *)
Inductive metric_name : Type := cosine | euclidean | manhattan | dot_product.

Definition DISTANCE_METRICS (m : metric_name) : vector -> vector -> float :=
  match m with
  | cosine => cosine_similarity
  | euclidean => euclidean_similarity
  | manhattan => manhattan_similarity
  | dot_product => dot_product_similarity
  end.

(** The comparison [<] on scores: false whenever a side is NaN. *)
Definition score_ltb (a b : float) : bool := (a <? b).

(** A vector of numbers: no component is NaN or infinite. *)
Definition finite_vector (v : vector) : Prop :=
  Forall (fun x => is_finite x = true) v.

(** A value of the specification of binary64 that is not below zero: a
    zero of either sign, a positive number, plus infinity, or NaN. *)
Definition not_neg (f : spec_float) : bool :=
  match f with
  | S754_finite true _ _ | S754_infinity true => false
  | _ => true
  end.

End Metrics.

Import Metrics.

(** ** vectordatabase.py: VectorDatabase *)

Module VectorDB.

(** The embedding client lives in [aimakerspace.openai_utils.embedding],
    which is outside the modelled files: it is a parameter of the store,
    given by what its two calls return. *)
Record EmbeddingModel : Type := mkEmbeddingModel {
  get_embedding : string -> result vector;
  async_get_embeddings : list string -> result (list vector)
}.

Record VectorDatabase : Type := mkVectorDatabase {
  vectors : dict vector;
  embedding_model : EmbeddingModel
}.

(** [VectorDatabase.__init__] with an embedding model supplied. *)
Definition init (em : EmbeddingModel) : VectorDatabase :=
  mkVectorDatabase [] em.

(** *** The monad of methods

    A method runs on the object and gives a value or an exception, and
    the object as it is when the method returns or raises. *)
Definition M (A : Type) : Type := VectorDatabase -> result A * VectorDatabase.

Definition ret {A : Type} (a : A) : M A := fun self => (inr a, self).

Definition raise {A : Type} (e : exn) : M A := fun self => (inl e, self).

Definition bind {A B : Type} (m : M A) (f : A -> M B) : M B :=
  fun self =>
    match m self with
    | (inl e, self') => (inl e, self')
    | (inr a, self') => f a self'
    end.

Notation "x <- m ;; k" := (bind m (fun x => k))
  (at level 61, m at next level, right associativity).
Notation "m ;;; k" := (bind m (fun _ => k))
  (at level 61, right associativity).

(** Reading [self.vectors] and [self.embedding_model]. *)
Definition read_vectors : M (dict vector) :=
  fun self => (inr (vectors self), self).

Definition read_model : M EmbeddingModel :=
  fun self => (inr (embedding_model self), self).

(** Replacing the contents of [self.vectors]. *)
Definition write_vectors (d : dict vector) : M unit :=
  fun self => (inr tt, mkVectorDatabase d (embedding_model self)).

(** The outcome of a call to the embedding client. *)
Definition call {A : Type} (r : result A) : M A :=
  match r with
  | inl e => raise e
  | inr a => ret a
  end.

(** [for x, y in zip(xs, ys, strict=True): body]: the pairs come one at
    a time, and the length check happens when one side runs out. *)
Fixpoint for_zip_strict {A B : Type} (xs : list A) (ys : list B)
    (body : A -> B -> M unit) : M unit :=
  match xs, ys with
  | [], [] => ret tt
  | x :: xs', y :: ys' => body x y ;;; for_zip_strict xs' ys' body
  | _, _ => raise ValueError
  end.

Definition metric : Type := vector -> vector -> float.

Definition insert (key : string) (v : vector) : M unit :=
  d <- read_vectors ;;
  write_vectors (dict_set key v d).

Definition search (query_vector : vector) (k : Z) (distance_measure : metric)
  : M (list (string * float)) :=
  d <- read_vectors ;;
  let scores :=
    map (fun kv => (fst kv, distance_measure query_vector (snd kv)))
        (dict_items d) in
  ret (slice_to (sorted score_ltb (@snd string float) true scores) k).

Definition search_by_text_result (return_as_text : bool) : Type :=
  if return_as_text then list string else list (string * float).

Definition search_by_text (query_text : string) (k : Z)
    (distance_measure : metric) (return_as_text : bool)
  : M (search_by_text_result return_as_text) :=
  em <- read_model ;;
  query_vector <- call (get_embedding em query_text) ;;
  results <- search query_vector k distance_measure ;;
  ret (match return_as_text return search_by_text_result return_as_text with
       | true => map fst results
       | false => results
       end).

Definition retrieve_from_key (key : string) : M (option vector) :=
  d <- read_vectors ;;
  ret (dict_get key d).

(** [return self]: the value is the object as it is at that point. *)
Definition return_self : M VectorDatabase :=
  fun self => (inr self, self).

Definition abuild_from_list (list_of_text : list string)
  : M VectorDatabase :=
  em <- read_model ;;
  embeddings <- call (async_get_embeddings em list_of_text) ;;
  for_zip_strict list_of_text embeddings (fun text embedding =>
    insert text embedding) ;;;
  return_self.

(** The loop of [search_by_text_with_token_budget], from the state
    [(selected_texts, used_tokens)] over what is left of the ranked
    list. *)
Fixpoint budget_loop (count_tokens : string -> Z) (limit : Z)
    (scored : list (string * float)) (selected_texts : list string)
    (used_tokens : Z) : list string * Z :=
  match scored with
  | [] => (selected_texts, used_tokens)
  | (text, _) :: rest =>
      let t := count_tokens text in
      if (used_tokens + t >? limit)%Z then (selected_texts, used_tokens)
      else budget_loop count_tokens limit rest
             (selected_texts ++ [text]) (used_tokens + t)%Z
  end.

Definition search_by_text_with_token_budget (query_text : string) (k : Z)
    (count_tokens : string -> Z) (max_context_tokens : Z)
    (distance_measure : metric) (reserve_tokens : Z)
  : M (list string * Z * list (string * float)) :=
  scored_results <- search_by_text query_text k distance_measure false ;;
  let limit := Z.max 0 (max_context_tokens - reserve_tokens) in
  let '(selected_texts, used_tokens) :=
    budget_loop count_tokens limit scored_results [] 0%Z in
  ret (selected_texts, used_tokens, scored_results).

(** No stored vector scores NaN against the query. *)
Definition scores_are_numbers (db : VectorDatabase) (q : vector)
    (dm : metric) : Prop :=
  Forall (fun kv => is_nan (dm q (snd kv)) = false) (vectors db).

(** The texts at the head of a list that satisfy [p], up to the first
    one that does not. *)
Fixpoint leading_run (p : string -> bool) (texts : list string)
  : list string :=
  match texts with
  | [] => []
  | t :: rest => if p t then t :: leading_run p rest else []
  end.

(** The sum of the token counts of a list of texts. *)
Definition total_tokens (count_tokens : string -> Z) (texts : list string)
  : Z :=
  fold_right Z.add 0%Z (map count_tokens texts).

(** The store after [self.insert] has run on each pair in turn. *)
Definition insert_all (pairs : list (string * vector)) (d : dict vector)
  : dict vector :=
  fold_left (fun acc p => dict_set (fst p) (snd p) acc) pairs d.

End VectorDB.

(** ** Small stores and collaborators used in the examples *)

Module Fixtures.

Import VectorDB.

Local Open Scope string_scope.
Local Open Scope float_scope.

(** A client that embeds every text as [[1]]. *)
Definition unit_model : EmbeddingModel :=
  mkEmbeddingModel (fun _ => inr [1]) (fun texts => inr (map (fun _ => [1]) texts)).

(** A client whose batched call returns a single vector whatever it is
    given. *)
Definition short_model : EmbeddingModel :=
  mkEmbeddingModel (fun _ => inr [1]) (fun _ => inr [[1]]).

Definition empty_db : VectorDatabase := init short_model.

(** The store after [insert("a", [1])] and [insert("b", [2])]. *)
Definition db_ab : VectorDatabase :=
  mkVectorDatabase [("a", [1]); ("b", [2])] unit_model.

(** A store that holds the zero vector under ["b"]. *)
Definition db_zero_vector : VectorDatabase :=
  mkVectorDatabase [("a", [1; 1]); ("b", [0; 0]); ("c", [1; 0])] unit_model.

(** A store whose only key is the empty text. *)
Definition db_blank : VectorDatabase :=
  mkVectorDatabase [("", [1])] unit_model.

(** A token counter that counts characters. *)
Definition count_chars (text : string) : Z := Z.of_nat (String.length text).

End Fixtures.

(** * Properties *)

(** ** Slices, ranges and strings *)

Module PyFacts.

Lemma slice_bound_nonneg (len : nat) (i : Z) :
  (0 <= i)%Z -> slice_bound len i = Nat.min (Z.to_nat i) len.
Proof.
  intros Hi. unfold slice_bound.
  destruct (Z.ltb_spec i 0); [lia | reflexivity].
Qed.

Lemma slice_bound_le (len : nat) (i : Z) : slice_bound len i <= len.
Proof.
  unfold slice_bound. destruct (Z.ltb_spec i 0); lia.
Qed.

Lemma slice_to_zero {A : Type} (l : list A) : slice_to l 0 = [].
Proof.
  unfold slice_to, slice. rewrite slice_bound_nonneg by lia.
  simpl. reflexivity.
Qed.

Lemma slice_to_firstn {A : Type} (l : list A) (k : Z) :
  slice_to l k = firstn (slice_bound (List.length l) k) l.
Proof.
  unfold slice_to, slice. rewrite (slice_bound_nonneg _ (Z.le_refl 0)).
  simpl. rewrite Nat.sub_0_r. reflexivity.
Qed.

Lemma slice_to_nil {A : Type} (k : Z) : slice_to (@nil A) k = [].
Proof.
  rewrite slice_to_firstn. apply firstn_nil.
Qed.

Lemma length_substring (s : string) (n m : nat) :
  String.length (substring n m s) = Nat.min m (String.length s - n).
Proof.
  revert n m. induction s as [|ch s IH]; intros n m.
  - destruct n, m; reflexivity.
  - destruct n as [|n].
    + destruct m as [|m]; simpl; [reflexivity|].
      rewrite IH, Nat.sub_0_r. reflexivity.
    + simpl. apply IH.
Qed.

Lemma nth_error_range_from (n i : nat) (start step : Z) :
  i < n ->
  nth_error (range_from n start step) i = Some (start + Z.of_nat i * step)%Z.
Proof.
  revert i start. induction n as [|n IH]; intros i start Hi; [lia|].
  destruct i as [|i]; cbn [range_from nth_error].
  - f_equal. simpl. ring.
  - rewrite IH by lia. f_equal. rewrite Nat2Z.inj_succ. ring.
Qed.

Lemma length_range_from (n : nat) (start step : Z) :
  List.length (range_from n start step) = n.
Proof.
  revert start. induction n as [|n IH]; intros start; simpl; [|rewrite IH];
    reflexivity.
Qed.

Lemma range0_pos (stop step : Z) :
  (0 < step)%Z ->
  range0 stop step = inr (range_from (range_count stop step) 0 step).
Proof.
  intros Hs. unfold range0.
  destruct (Z.eqb_spec step 0); [lia|].
  destruct (Z.ltb_spec step 0); [lia|]. reflexivity.
Qed.

(** The number of values of [range(0, stop, step)], bracketed. *)
Lemma range_count_spec (stop step : Z) :
  (0 <= stop)%Z -> (0 < step)%Z ->
  let n := Z.of_nat (range_count stop step) in
  ((n - 1) * step < stop)%Z /\ (stop <= n * step)%Z.
Proof.
  intros Hstop Hstep. unfold range_count. cbv zeta.
  assert (Hq : (0 <= (stop + step - 1) / step)%Z)
    by (apply Z.div_pos; lia).
  rewrite Z2Nat.id by exact Hq.
  pose proof (Z.div_mod (stop + step - 1) step ltac:(lia)) as Hdm.
  pose proof (Z.mod_pos_bound (stop + step - 1) step Hstep) as Hmod.
  set (q := ((stop + step - 1) / step)%Z) in *.
  set (r := ((stop + step - 1) mod step)%Z) in *.
  replace ((q - 1) * step)%Z with (step * q - step)%Z by ring.
  replace (q * step)%Z with (step * q)%Z by ring.
  split; lia.
Qed.

End PyFacts.

(** ** CharacterTextSplitter *)

Module SplitterFacts.

Import PyFacts TextUtils.

Lemma init_inv (size overlap : Z) (sp : CharacterTextSplitter) :
  init size overlap = inr sp ->
  (size > overlap)%Z /\ sp = mkSplitter size overlap.
Proof.
  unfold init. destruct (Z.gtb_spec size overlap) as [Hgt|Hle]; intros H.
  - injection H as <-. split; [lia | reflexivity].
  - discriminate.
Qed.

(** What [split] returns when the stride is positive. *)
Lemma split_pos_stride (sp : CharacterTextSplitter) (text : string) :
  (chunk_size sp > chunk_overlap sp)%Z ->
  split sp text =
    inr (map (fun i => str_slice text i (i + chunk_size sp))
             (range_from
                (range_count (Z.of_nat (String.length text))
                             (chunk_size sp - chunk_overlap sp))
                0 (chunk_size sp - chunk_overlap sp))).
Proof.
  intros H. unfold split. rewrite range0_pos by lia. reflexivity.
Qed.

(** A chunk cut at an offset inside the text, with a positive size, is
    the piece of the text from that offset to the end of the chunk or of
    the text. *)
Lemma str_slice_inside (text : string) (a size : Z) :
  (0 <= a < Z.of_nat (String.length text))%Z -> (0 < size)%Z ->
  let chunk := str_slice text a (a + size) in
  Z.of_nat (String.length chunk)
    = Z.min size (Z.of_nat (String.length text) - a) /\
  substring (Z.to_nat a) (String.length chunk) text = chunk.
Proof.
  intros Ha Hsize. cbv zeta.
  assert (Hlen : String.length (str_slice text a (a + size))
                 = Nat.min (Z.to_nat (a + size)) (String.length text)
                   - Z.to_nat a).
  { unfold str_slice. rewrite !slice_bound_nonneg by lia.
    rewrite length_substring. lia. }
  split.
  - rewrite Hlen. lia.
  - rewrite Hlen. unfold str_slice. rewrite !slice_bound_nonneg by lia.
    f_equal; lia.
Qed.

Lemma covers_of_valid (sp : CharacterTextSplitter) (text : string)
    (chunks : list string) :
  (0 <= chunk_overlap sp < chunk_size sp)%Z ->
  split sp text = inr chunks ->
  covers sp text chunks.
Proof.
  intros Hv Hsplit j Hj.
  rewrite split_pos_stride in Hsplit by lia. injection Hsplit as <-.
  set (step := (chunk_size sp - chunk_overlap sp)%Z).
  set (len := Z.of_nat (String.length text)).
  assert (Hstep : (0 < step)%Z) by (unfold step; lia).
  destruct (@range_count_spec len step ltac:(unfold len; lia) Hstep)
    as [_ Hup].
  set (c := Z.to_nat (Z.of_nat j / step)).
  pose proof (Z.div_mod (Z.of_nat j) step ltac:(lia)) as Hdm.
  pose proof (Z.mod_pos_bound (Z.of_nat j) step Hstep) as Hmod.
  assert (Hq : (0 <= Z.of_nat j / step)%Z) by (apply Z.div_pos; lia).
  assert (Hc : Z.of_nat c = (Z.of_nat j / step)%Z)
    by (unfold c; rewrite Z2Nat.id; lia).
  assert (Hcs : (chunk_start sp c = step * (Z.of_nat j / step))%Z)
    by (unfold chunk_start; fold step; rewrite Hc; ring).
  assert (Hcn : c < range_count len step).
  { apply Nat2Z.inj_lt. rewrite Hc.
    apply Z.div_lt_upper_bound; [lia|].
    replace (step * Z.of_nat (range_count len step))%Z
      with (Z.of_nat (range_count len step) * step)%Z by ring.
    unfold len in *. lia. }
  destruct (@str_slice_inside text (chunk_start sp c) (chunk_size sp))
    as [Hl Hsub]; [unfold len in *; lia | lia |].
  exists c, (str_slice text (chunk_start sp c)
                       (chunk_start sp c + chunk_size sp)).
  split; [|split].
  - rewrite nth_error_map, nth_error_range_from by exact Hcn.
    simpl. unfold chunk_start. fold step. reflexivity.
  - rewrite Hl. unfold step in *. lia.
  - exact Hsub.
Qed.

Lemma ends_at_end_of_valid (sp : CharacterTextSplitter) (text : string)
    (chunks : list string) :
  (0 <= chunk_overlap sp < chunk_size sp)%Z ->
  split sp text = inr chunks ->
  ends_at_end sp text chunks.
Proof.
  intros Hv Hsplit c chunk Hnth Hlast.
  rewrite split_pos_stride in Hsplit by lia. injection Hsplit as <-.
  set (step := (chunk_size sp - chunk_overlap sp)%Z) in *.
  set (len := Z.of_nat (String.length text)) in *.
  assert (Hstep : (0 < step)%Z) by (unfold step; lia).
  destruct (@range_count_spec len step ltac:(unfold len; lia) Hstep)
    as [Hlo Hup].
  rewrite length_map, length_range_from in Hlast.
  rewrite <- Hlast in Hlo, Hup.
  rewrite nth_error_map, nth_error_range_from in Hnth by lia.
  simpl in Hnth. injection Hnth as <-.
  assert (Hcs : chunk_start sp c = (Z.of_nat c * step)%Z) by reflexivity.
  rewrite Nat2Z.inj_succ in Hlo, Hup.
  replace ((Z.succ (Z.of_nat c) - 1) * step)%Z
    with (Z.of_nat c * step)%Z in Hlo by ring.
  replace (Z.succ (Z.of_nat c) * step)%Z
    with (Z.of_nat c * step + step)%Z in Hup by ring.
  assert (Hc0 : (0 <= Z.of_nat c * step)%Z) by (apply Z.mul_nonneg_nonneg; lia).
  destruct (@str_slice_inside text (chunk_start sp c) (chunk_size sp))
    as [Hl _]; [unfold len in *; lia | lia |].
  rewrite Hcs in Hl |- *. rewrite Hl. unfold len in *. lia.
Qed.

Lemma split_empty_of_valid (sp : CharacterTextSplitter) :
  (chunk_size sp > chunk_overlap sp)%Z ->
  split sp EmptyString = inr [].
Proof.
  intros Hv. rewrite split_pos_stride by exact Hv. simpl.
  unfold range_count.
  rewrite Z.div_small by lia. reflexivity.
Qed.

End SplitterFacts.

Module SplitterSpec.

Import PyFacts TextUtils SplitterFacts.

Local Open Scope string_scope.

(** Claim C8.  Constructing a [CharacterTextSplitter] raises the
    assertion's error exactly when [chunk_size <= chunk_overlap]; when
    [chunk_size > chunk_overlap] the construction succeeds and the object
    holds the two values. *)
Theorem init_fails_iff_size_le_overlap (size overlap : Z) :
  ((size <= overlap)%Z -> init size overlap = inl AssertionError) /\
  ((size > overlap)%Z -> init size overlap = inr (mkSplitter size overlap)) /\
  ((exists e, init size overlap = inl e) <-> (size <= overlap)%Z).
Proof.
  unfold init. destruct (Z.gtb_spec size overlap) as [Hgt|Hle].
  - repeat split; try lia; try reflexivity.
    intros [e He]. discriminate.
  - repeat split; try lia; try reflexivity.
    intros _. exists AssertionError. reflexivity.
Qed.

Lemma init_fails_iff_size_le_overlap_witness :
  init 200 200 = inl AssertionError /\
  init 1000 200 = inr (mkSplitter 1000 200).
Proof.
  split.
  - apply (proj1 (init_fails_iff_size_le_overlap 200 200)). lia.
  - apply (proj1 (proj2 (init_fails_iff_size_le_overlap 1000 200))). lia.
Defined.

(** Claim C6, as the code has it.  For a splitter built with
    [chunk_size > chunk_overlap], [split] of the empty string gives no
    chunk; and when moreover [chunk_overlap >= 0], for every text,
    [split] returns chunks that cover every character of the text, and
    the last chunk ends where the text ends. *)
Theorem split_covers_text (size overlap : Z) (sp : CharacterTextSplitter)
    (text : string) :
  init size overlap = inr sp ->
  split sp "" = inr [] /\
  ((0 <= overlap)%Z ->
   exists chunks : list string,
     split sp text = inr chunks /\
     covers sp text chunks /\
     ends_at_end sp text chunks).
Proof.
  intros Hinit. apply init_inv in Hinit as [Hgt ->].
  split; [apply split_empty_of_valid; simpl; lia|].
  intros Hov.
  destruct (split (mkSplitter size overlap) text) as [e|chunks] eqn:Hs.
  - rewrite split_pos_stride in Hs by (simpl; lia). discriminate.
  - exists chunks. split; [reflexivity|]. split.
    + apply covers_of_valid; [simpl; lia | exact Hs].
    + apply ends_at_end_of_valid; [simpl; lia | exact Hs].
Qed.

Lemma split_covers_text_witness :
  split (mkSplitter 1 (-1)) "" = inr [] /\
  exists chunks : list string,
    split (mkSplitter 4 1) "abcdefgh" = inr chunks /\
    covers (mkSplitter 4 1) "abcdefgh" chunks /\
    ends_at_end (mkSplitter 4 1) "abcdefgh" chunks.
Proof.
  split.
  - apply (proj1 (@split_covers_text 1 (-1) (mkSplitter 1 (-1)) "ab"
                    eq_refl)).
  - apply (proj2 (@split_covers_text 4 1 (mkSplitter 4 1) "abcdefgh"
                    eq_refl)). lia.
Defined.

Example split_abcdefgh :
  split (mkSplitter 4 1) "abcdefgh" = inr ["abcd"; "defg"; "gh"].
Proof. reflexivity. Qed.

(** Claim C6, as stated, fails when the overlap is negative: with
    [chunk_size = 1] and [chunk_overlap = -1] the stride is 2, and the
    text ["ab"] gives the single chunk ["a"]. *)
Lemma split_negative_overlap_leaves_gap :
  init 1 (-1) = inr (mkSplitter 1 (-1)) /\
  split (mkSplitter 1 (-1)) "ab" = inr ["a"] /\
  ~ covers (mkSplitter 1 (-1)) "ab" ["a"] /\
  ~ ends_at_end (mkSplitter 1 (-1)) "ab" ["a"].
Proof.
  split; [reflexivity|]. split; [reflexivity|]. split.
  - intros H. destruct (H 1%nat ltac:(simpl; lia)) as (c & chunk & Hn & Hr & _).
    destruct c as [|c].
    + injection Hn as <-. unfold chunk_start in Hr. simpl in Hr. lia.
    + destruct c; discriminate.
  - intros H. specialize (H 0%nat "a" eq_refl eq_refl).
    unfold chunk_start in H. simpl in H. lia.
Qed.

End SplitterSpec.

(** ** Binary64 arithmetic and comparisons *)

Module FloatFacts.

Local Open Scope float_scope.

(** *** The order of binary64 *)

Ltac cmp_cases :=
  repeat match goal with
  | H : context [Z.compare ?a ?b] |- _ => destruct (Z.compare_spec a b)
  | |- context [Z.compare ?a ?b] => destruct (Z.compare_spec a b)
  | H : context [Pos.compare ?a ?b] |- _ => destruct (Pos.compare_spec a b)
  | |- context [Pos.compare ?a ?b] => destruct (Pos.compare_spec a b)
  end.

Ltac sf_order :=
  unfold SFltb, SFleb, SFeqb, SFcompare in *;
  repeat match goal with
  | f : spec_float |- _ => destruct f
  | b : bool |- _ => destruct b
  end;
  try discriminate; try reflexivity; try congruence;
  change (Pos.compare_cont Eq) with Pos.compare in *;
  cmp_cases; simpl in *; subst;
  try discriminate; try reflexivity; try congruence; try lia.

Lemma SFltb_asym (x y : spec_float) : SFltb x y = true -> SFltb y x = false.
Proof. intros H. sf_order. Qed.

Lemma SFltb_negtrans (x y z : spec_float) :
  x <> S754_nan -> y <> S754_nan -> z <> S754_nan ->
  SFltb x y = false -> SFltb y z = false -> SFltb x z = false.
Proof. intros Hx Hy Hz H1 H2. sf_order. Qed.

Lemma SFleb_of_not_ltb (x y : spec_float) :
  x <> S754_nan -> y <> S754_nan -> SFltb x y = false -> SFleb y x = true.
Proof. intros Hx Hy H. sf_order. Qed.

Lemma SFltb_of_leb (x y : spec_float) : SFleb y x = true -> SFltb x y = false.
Proof. intros H. sf_order. Qed.

Lemma SFeqb_sym (x y : spec_float) : SFeqb x y = SFeqb y x.
Proof. sf_order. Qed.

Lemma SFeqb_class (a b s : spec_float) :
  SFeqb a s = true -> SFeqb b s = true -> SFltb a b = false.
Proof. intros Ha Hb. sf_order. Qed.

Lemma SFeqb_refl (x : spec_float) : x <> S754_nan -> SFeqb x x = true.
Proof. intros H. sf_order. Qed.

Lemma SFeqb_nan_l (y : spec_float) : SFeqb S754_nan y = false.
Proof. reflexivity. Qed.

Lemma is_nan_Prim2SF (x : float) :
  is_nan x = false <-> Prim2SF x <> S754_nan.
Proof.
  split.
  - intros H. unfold Prim2SF. rewrite H.
    destruct (is_zero x); [discriminate|].
    destruct (is_infinity x); [discriminate|].
    destruct (Z.frexp x) as [r e].
    destruct (shr_fexp _ _ _ _ _) as [s e'].
    destruct (shr_m s); discriminate.
  - intros H. destruct (is_nan x) eqn:E; [|reflexivity].
    exfalso. apply H. unfold Prim2SF. rewrite E. reflexivity.
Qed.

Lemma ltb_asym (a b : float) : (a <? b) = true -> (b <? a) = false.
Proof. rewrite !ltb_spec. apply SFltb_asym. Qed.

Lemma ltb_negtrans (a b c : float) :
  is_nan a = false -> is_nan b = false -> is_nan c = false ->
  (a <? b) = false -> (b <? c) = false -> (a <? c) = false.
Proof.
  rewrite !is_nan_Prim2SF, !ltb_spec. apply SFltb_negtrans.
Qed.

Lemma leb_of_not_ltb (a b : float) :
  is_nan a = false -> is_nan b = false -> (a <? b) = false -> (b <=? a) = true.
Proof.
  rewrite !is_nan_Prim2SF, ltb_spec, leb_spec. apply SFleb_of_not_ltb.
Qed.

Lemma not_ltb_of_leb (a b : float) : (b <=? a) = true -> (a <? b) = false.
Proof. rewrite ltb_spec, leb_spec. apply SFltb_of_leb. Qed.

Lemma eqb_sym (a b : float) : (a =? b) = (b =? a).
Proof. rewrite !eqb_spec. apply SFeqb_sym. Qed.

Lemma eqb_class (a b s : float) :
  (a =? s) = true -> (b =? s) = true -> (a <? b) = false.
Proof. rewrite !eqb_spec, ltb_spec. apply SFeqb_class. Qed.

Lemma eqb_refl_of_eqb (a b : float) : (a =? b) = true -> (a =? a) = true.
Proof.
  rewrite !eqb_spec. intros H. apply SFeqb_refl. intros E.
  rewrite E in H. discriminate.
Qed.

(** *** Signs of results *)

Lemma binary_round_aux_not_neg (mx ex : Z) (lx : location) :
  not_neg (binary_round_aux prec emax false mx ex lx) = true.
Proof.
  unfold binary_round_aux.
  destruct (shr_fexp prec emax mx ex lx) as [mrs' e'].
  destruct (shr_fexp prec emax _ e' loc_Exact) as [mrs'' e''].
  destruct (shr_m mrs''); try reflexivity.
  destruct (Z.leb e'' _); reflexivity.
Qed.

Lemma SFsqrt_not_neg (x : spec_float) : not_neg (SFsqrt prec emax x) = true.
Proof.
  destruct x as [s|s| |s m e]; try destruct s; try reflexivity.
  unfold SFsqrt. destruct (SFsqrt_core_binary prec emax (Z.pos m) e) as [[mz ez] lz].
  apply binary_round_aux_not_neg.
Qed.

Lemma SFabs_not_neg (x : spec_float) : not_neg (SFabs x) = true.
Proof. destruct x; reflexivity. Qed.

Lemma binary_round_not_neg (m : positive) (e : Z) :
  not_neg (binary_round prec emax false m e) = true.
Proof.
  unfold binary_round. destruct (shl_align m e _) as [mz ez].
  apply binary_round_aux_not_neg.
Qed.

Lemma SFadd_not_neg (x y : spec_float) :
  not_neg x = true -> not_neg y = true ->
  not_neg (SFadd prec emax x y) = true.
Proof.
  destruct x as [sx|sx| |sx mx ex], y as [sy|sy| |sy my ey];
    try destruct sx; try destruct sy; try discriminate; try reflexivity.
  intros _ _. unfold SFadd. cbv zeta. unfold cond_Zopp.
  cbn [Z.add]. unfold binary_normalize. apply binary_round_not_neg.
Qed.

Lemma SFltb_zero_opp (x : spec_float) :
  not_neg x = true -> SFltb (S754_zero false) (SFopp x) = false.
Proof.
  destruct x as [s|s| |s m e]; try destruct s; try discriminate; reflexivity.
Qed.

(** *** Finite values *)

Lemma is_finite_Prim2SF (x : float) :
  is_finite x = true ->
  (exists s, Prim2SF x = S754_zero s) \/
  (exists s m e, Prim2SF x = S754_finite s m e).
Proof.
  unfold is_finite. intros H. apply negb_true_iff, orb_false_iff in H.
  destruct H as [Hn Hi]. unfold Prim2SF. rewrite Hn, Hi.
  destruct (is_zero x); [left; eexists; reflexivity|].
  destruct (Z.frexp x) as [r e].
  destruct (shr_fexp _ _ _ _ _) as [s e'].
  destruct (shr_m s); [left|right|left]; repeat eexists.
Qed.

Lemma sub_diag (x : float) : is_finite x = true -> x - x = 0.
Proof.
  intros H. rewrite <- (SF2Prim_Prim2SF (x - x)), sub_spec.
  destruct (is_finite_Prim2SF x H) as [[s E]|(s & m & e & E)]; rewrite E.
  - destruct s; reflexivity.
  - unfold SF64sub, SFsub. cbv zeta. rewrite Z.sub_diag. reflexivity.
Qed.

(** *** Symmetry of products and differences *)

Lemma mul_comm (x y : float) : x * y = y * x.
Proof.
  rewrite <- (SF2Prim_Prim2SF (x * y)), <- (SF2Prim_Prim2SF (y * x)).
  rewrite !mul_spec. f_equal.
  destruct (Prim2SF x) as [sx|sx| |sx mx ex], (Prim2SF y) as [sy|sy| |sy my ey];
    unfold SF64mul, SFmul; try reflexivity;
    rewrite (xorb_comm sx sy); try reflexivity.
  rewrite (Pos.mul_comm mx my), (Z.add_comm ex ey). reflexivity.
Qed.

Lemma SFabs_binary_round (m : positive) (e : Z) :
  SFabs (binary_round prec emax true m e)
    = SFabs (binary_round prec emax false m e).
Proof.
  unfold binary_round. destruct (shl_align m e _) as [mz ez].
  unfold binary_round_aux.
  destruct (shr_fexp prec emax (Z.pos mz) ez loc_Exact) as [mrs' e'].
  destruct (shr_fexp prec emax _ e' loc_Exact) as [mrs'' e''].
  destruct (shr_m mrs''); try reflexivity.
  destruct (Z.leb e'' _); reflexivity.
Qed.

Lemma SFabs_normalize_opp (m e : Z) :
  SFabs (binary_normalize prec emax (- m) e false)
    = SFabs (binary_normalize prec emax m e false).
Proof.
  destruct m; simpl; [reflexivity | | symmetry]; apply SFabs_binary_round.
Qed.

Lemma SFabs_sub_swap (x y : spec_float) :
  SFabs (SFsub prec emax x y) = SFabs (SFsub prec emax y x).
Proof.
  destruct x as [sx|sx| |sx mx ex], y as [sy|sy| |sy my ey];
    try destruct sx; try destruct sy; try reflexivity;
    unfold SFsub; cbv zeta; rewrite (Z.min_comm ey ex);
    rewrite <- SFabs_normalize_opp; do 2 f_equal; lia.
Qed.

Lemma SFmul_self_abs (f g : spec_float) :
  SFabs f = SFabs g -> SFmul prec emax f f = SFmul prec emax g g.
Proof.
  destruct f as [sf|sf| |sf mf ef], g as [sg|sg| |sg mg eg];
    try discriminate; simpl; intros H;
    try (injection H as -> ->);
    try destruct sf; try destruct sg; reflexivity.
Qed.

Lemma abs_sub_swap (x y : float) : abs (x - y) = abs (y - x).
Proof.
  rewrite <- (SF2Prim_Prim2SF (abs (x - y))), <- (SF2Prim_Prim2SF (abs (y - x))).
  rewrite !abs_spec, !sub_spec. f_equal. apply SFabs_sub_swap.
Qed.

Lemma sqr_sub_swap (x y : float) : (x - y) * (x - y) = (y - x) * (y - x).
Proof.
  rewrite <- (SF2Prim_Prim2SF ((x - y) * (x - y))),
          <- (SF2Prim_Prim2SF ((y - x) * (y - x))).
  rewrite !mul_spec, !sub_spec. f_equal.
  apply SFmul_self_abs, SFabs_sub_swap.
Qed.

End FloatFacts.

(** ** The builtin [sorted] *)

Module SortFacts.

Section StableSort.
Variables (A K : Type).
Variable ltb : K -> K -> bool.
Variable key : A -> K.

(** The items whose keys [<] orders: for float keys, those that are not
    NaN.  On them [<] is asymmetric and [>=] is transitive. *)
Variable ok : A -> Prop.
Hypothesis ltb_asym : forall a b, ltb a b = true -> ltb b a = false.
Hypothesis geb_trans :
  forall x y z, ok x -> ok y -> ok z ->
    ltb (key x) (key y) = false -> ltb (key y) (key z) = false ->
    ltb (key x) (key z) = false.

Lemma insert_stable_perm (x : A) (l : list A) :
  Permutation (insert_stable ltb key x l) (x :: l).
Proof.
  induction l as [|y l IH]; simpl; [reflexivity|].
  destruct (ltb (key y) (key x)); [|reflexivity].
  rewrite IH. apply perm_swap.
Qed.

Lemma sort_stable_perm (l : list A) :
  Permutation (sort_stable ltb key l) l.
Proof.
  induction l as [|x l IH]; simpl; [reflexivity|].
  rewrite insert_stable_perm. constructor. exact IH.
Qed.

Lemma sorted_perm (reverse : bool) (l : list A) :
  Permutation (sorted ltb key reverse l) l.
Proof.
  unfold sorted. destruct reverse.
  - rewrite <- Permutation_rev, sort_stable_perm.
    symmetry. apply Permutation_rev.
  - apply sort_stable_perm.
Qed.

Lemma sorted_length (reverse : bool) (l : list A) :
  List.length (sorted ltb key reverse l) = List.length l.
Proof.
  apply Permutation_length, sorted_perm.
Qed.

Lemma insert_stable_asc (x : A) (l : list A) :
  ok x -> Forall ok l ->
  StronglySorted (asc ltb key) l ->
  StronglySorted (asc ltb key) (insert_stable ltb key x l).
Proof.
  intros Hx Hok Hs. induction Hs as [|y l Hs IH Hall]; simpl.
  - repeat constructor.
  - inversion Hok as [|? ? Hy Hl]; subst.
    destruct (ltb (key y) (key x)) eqn:Hyx.
    + constructor; [exact (IH Hl)|].
      eapply Permutation_Forall.
      * symmetry. apply insert_stable_perm.
      * constructor; [|exact Hall]. unfold Py.asc. apply ltb_asym, Hyx.
    + constructor; [constructor; assumption|].
      constructor; [exact Hyx|].
      rewrite Forall_forall in Hall, Hl |- *.
      intros z Hz. unfold Py.asc in *.
      apply (geb_trans (Hl z Hz) Hy Hx (Hall z Hz) Hyx).
Qed.

Lemma sort_stable_asc (l : list A) :
  Forall ok l -> StronglySorted (asc ltb key) (sort_stable ltb key l).
Proof.
  induction l as [|x l IH]; simpl; intros Hok; [constructor|].
  inversion Hok as [|? ? Hx Hl]; subst.
  apply insert_stable_asc; [exact Hx | | exact (IH Hl)].
  eapply Permutation_Forall; [symmetry; apply sort_stable_perm | exact Hl].
Qed.

Lemma StronglySorted_app_last (R : A -> A -> Prop) (l : list A) (x : A) :
  StronglySorted R l -> Forall (fun y => R y x) l ->
  StronglySorted R (l ++ [x]).
Proof.
  induction 1 as [|y l Hs IH Hall]; intros Hx; simpl.
  - repeat constructor.
  - inversion Hx as [|? ? Hyx Hlx]; subst.
    constructor; [apply IH, Hlx|].
    apply Forall_app. split; [exact Hall|]. constructor; [exact Hyx|constructor].
Qed.

Lemma rev_asc_desc (l : list A) :
  StronglySorted (asc ltb key) l -> StronglySorted (desc ltb key) (rev l).
Proof.
  induction 1 as [|y l Hs IH Hall]; simpl; [constructor|].
  apply StronglySorted_app_last; [exact IH|].
  apply Forall_rev. exact Hall.
Qed.

(** With [reverse=True] the outcome is in descending order, when [<]
    orders the keys of the list. *)
Lemma sorted_reverse_desc (l : list A) :
  Forall ok l -> StronglySorted (desc ltb key) (sorted ltb key true l).
Proof.
  intros Hok. unfold sorted. apply rev_asc_desc, sort_stable_asc.
  apply Forall_rev, Hok.
Qed.

(** Stability, for a class [p] of items none of which is [<] another:
    the sort leaves the items of the class in the order they had. *)
Section Class.
Variable p : A -> bool.
Hypothesis p_class :
  forall x y, p x = true -> p y = true -> ltb (key x) (key y) = false.

Lemma filter_insert_stable (x : A) (l : list A) :
  filter p (insert_stable ltb key x l) = filter p (x :: l).
Proof.
  induction l as [|y l IH]; [reflexivity|].
  cbn [insert_stable]. destruct (ltb (key y) (key x)) eqn:Hyx;
    [|reflexivity].
  cbn [filter] in *. rewrite IH.
  destruct (p y) eqn:Hy, (p x) eqn:Hx; try reflexivity.
  rewrite (p_class Hy Hx) in Hyx. discriminate.
Qed.

Lemma filter_sort_stable (l : list A) :
  filter p (sort_stable ltb key l) = filter p l.
Proof.
  induction l as [|x l IH]; [reflexivity|].
  cbn [sort_stable]. rewrite filter_insert_stable.
  cbn [filter]. rewrite IH. reflexivity.
Qed.

Lemma filter_sorted (reverse : bool) (l : list A) :
  filter p (sorted ltb key reverse l) = filter p l.
Proof.
  unfold sorted. destruct reverse.
  - rewrite filter_rev, filter_sort_stable, filter_rev.
    apply rev_involutive.
  - apply filter_sort_stable.
Qed.
End Class.
End StableSort.

(** [before] and sublists picked by [filter] and [firstn]. *)
Section Before.
Variable A : Type.

Lemma before_cons (x y z : A) (l : list A) :
  before x y l -> before x y (z :: l).
Proof.
  intros (l1 & l2 & l3 & ->). exists (z :: l1), l2, l3. reflexivity.
Qed.

Lemma before_head (x y : A) (l : list A) : In y l -> before x y (x :: l).
Proof.
  intros Hy. apply in_split in Hy as (l2 & l3 & ->).
  exists [], l2, l3. reflexivity.
Qed.

Lemma before_inv (x y z : A) (l : list A) :
  before x y (z :: l) -> (z = x /\ In y l) \/ before x y l.
Proof.
  intros (l1 & l2 & l3 & H). destruct l1 as [|w l1]; simpl in H.
  - injection H as -> ->. left. split; [reflexivity|].
    apply in_or_app. right. left. reflexivity.
  - injection H as -> ->. right. exists l1, l2, l3. reflexivity.
Qed.

Lemma before_filter (p : A -> bool) (x y : A) (l : list A) :
  before x y (filter p l) -> before x y l.
Proof.
  induction l as [|z l IH]; simpl; intros H.
  - destruct H as (l1 & ? & ? & H). destruct l1; discriminate.
  - destruct (p z).
    + apply before_inv in H as [[-> Hy]|H].
      * apply before_head. apply filter_In in Hy. apply Hy.
      * apply before_cons, IH, H.
    + apply before_cons, IH, H.
Qed.

Lemma before_firstn (n : nat) (x y : A) (l : list A) :
  before x y (firstn n l) -> before x y l.
Proof.
  intros (l1 & l2 & l3 & H).
  exists l1, l2, (l3 ++ skipn n l).
  rewrite <- (firstn_skipn n l) at 1. rewrite H.
  repeat (rewrite <- app_assoc; simpl). reflexivity.
Qed.

Lemma before_filter_intro (p : A -> bool) (x y : A) (l : list A) :
  p x = true -> p y = true -> before x y l -> before x y (filter p l).
Proof.
  intros Hx Hy (l1 & l2 & l3 & ->).
  exists (filter p l1), (filter p l2), (filter p l3).
  rewrite filter_app. cbn [filter]. rewrite Hx, filter_app.
  cbn [filter]. rewrite Hy. reflexivity.
Qed.

Lemma before_map_inv (B : Type) (f : B -> A) (x y : A) (l : list B) :
  before x y (map f l) ->
  exists a b, f a = x /\ f b = y /\ before a b l.
Proof.
  intros (l1 & l2 & l3 & H).
  apply map_eq_app in H as (m1 & m23 & -> & <- & H).
  apply map_eq_cons in H as (a & m23' & -> & <- & H).
  apply map_eq_app in H as (m2 & m3 & -> & <- & H).
  apply map_eq_cons in H as (b & m3' & -> & <- & <-).
  exists a, b. split; [reflexivity|]. split; [reflexivity|].
  exists m1, m2, m3'. reflexivity.
Qed.
End Before.

End SortFacts.

(** ** VectorDatabase: search *)

Module SearchFacts.

Import PyFacts SortFacts VectorDB.

Lemma score_ltb_asym (a b : float) :
  score_ltb a b = true -> score_ltb b a = false.
Proof. apply FloatFacts.ltb_asym. Qed.

Lemma score_geb_trans (x y z : string * float) :
  is_nan (snd x) = false -> is_nan (snd y) = false ->
  is_nan (snd z) = false ->
  score_ltb (snd x) (snd y) = false -> score_ltb (snd y) (snd z) = false ->
  score_ltb (snd x) (snd z) = false.
Proof. apply FloatFacts.ltb_negtrans. Qed.

(** The scores of the stored vectors, in the order of the store. *)
Lemma search_run (db : VectorDatabase) (q : vector) (k : Z) (dm : metric) :
  search q k dm db =
    (inr (slice_to
            (sorted score_ltb (@snd string float) true
               (map (fun kv => (fst kv, dm q (snd kv))) (vectors db))) k),
     db).
Proof. reflexivity. Qed.

Lemma StronglySorted_firstn {A : Type} (R : A -> A -> Prop) (n : nat)
    (l : list A) :
  StronglySorted R l -> StronglySorted R (firstn n l).
Proof.
  intros H. revert n. induction H as [|x l Hs IH Hall]; intros n.
  - rewrite firstn_nil. constructor.
  - destruct n as [|n]; simpl; constructor; [apply IH|].
    apply Forall_forall. intros y Hy.
    rewrite Forall_forall in Hall. apply Hall.
    rewrite <- (firstn_skipn n l). apply in_or_app. left. exact Hy.
Qed.

Lemma StronglySorted_weaken {A : Type} (R S : A -> A -> Prop) (l : list A) :
  (forall x y, R x y -> S x y) -> StronglySorted R l -> StronglySorted S l.
Proof.
  intros HRS. induction 1 as [|x l Hs IH Hall]; constructor; [exact IH|].
  apply Forall_impl with (2 := Hall). apply HRS.
Qed.

(** The ranked list before the slice is in descending order of score,
    when no score is NaN. *)
Lemma ranked_descending (scores : list (string * float)) :
  Forall (fun x => is_nan (snd x) = false) scores ->
  StronglySorted (fun x y => PrimFloat.leb (snd y) (snd x) = true)
    (sorted score_ltb (@snd string float) true scores).
Proof.
  intros Hok.
  assert (Hsorted := @sorted_reverse_desc _ _ score_ltb (@snd string float)
                       (fun x => is_nan (snd x) = false)
                       score_ltb_asym score_geb_trans scores Hok).
  assert (Hall : Forall (fun x => is_nan (snd x) = false)
                   (sorted score_ltb (@snd string float) true scores)).
  { eapply Permutation_Forall; [symmetry; apply sorted_perm | exact Hok]. }
  revert Hsorted Hall.
  generalize (sorted score_ltb (@snd string float) true scores).
  intros l Hs. induction Hs as [|x l Hs IH Hx]; intros Hall; constructor.
  - apply IH. inversion Hall; assumption.
  - inversion Hall as [|? ? Hnx Hnl]; subst.
    rewrite Forall_forall in Hx, Hnl |- *. intros y Hy.
    apply FloatFacts.leb_of_not_ltb; [exact Hnx | exact (Hnl y Hy) |].
    exact (Hx y Hy).
Qed.

(** Items of equal score keep, in the ranked list, the order they
    had. *)
Lemma ranked_stable (scores : list (string * float)) (x y : string * float) :
  PrimFloat.eqb (snd x) (snd y) = true ->
  before x y (sorted score_ltb (@snd string float) true scores) ->
  before x y scores.
Proof.
  intros Hxy Hb.
  set (p := fun z : string * float => PrimFloat.eqb (snd z) (snd x)).
  assert (Hpx : p x = true) by (apply (FloatFacts.eqb_refl_of_eqb Hxy)).
  assert (Hpy : p y = true)
    by (unfold p; rewrite FloatFacts.eqb_sym; exact Hxy).
  apply (before_filter p).
  rewrite <- (@filter_sorted _ _ score_ltb (@snd string float) p)
    with (reverse := true).
  - apply before_filter_intro; assumption.
  - intros a b Ha Hb'. unfold p in Ha, Hb'.
    apply (FloatFacts.eqb_class Ha Hb').
Qed.

(** [insert] keeps one entry per key. *)
Lemma dict_set_keys (V : Type) (k : string) (v : V) (d : dict V) :
  map fst (dict_set k v d) =
    if existsb (String.eqb k) (map fst d) then map fst d
    else map fst d ++ [k].
Proof.
  induction d as [|[k' v'] d IH]; simpl; [reflexivity|].
  destruct (String.eqb_spec k k') as [->|Hne]; simpl; [reflexivity|].
  rewrite IH. destruct (existsb (String.eqb k) (map fst d)); reflexivity.
Qed.

Lemma dict_set_NoDup (V : Type) (k : string) (v : V) (d : dict V) :
  NoDup (map fst d) -> NoDup (map fst (dict_set k v d)).
Proof.
  intros Hnd. rewrite dict_set_keys.
  destruct (existsb (String.eqb k) (map fst d)) eqn:He; [exact Hnd|].
  apply NoDup_app; [exact Hnd | repeat constructor; intros [] |].
  intros x Hx [E|[]]. subst x.
  assert (existsb (String.eqb k) (map fst d) = true); [|congruence].
  apply existsb_exists. exists k. split; [exact Hx|apply String.eqb_refl].
Qed.

End SearchFacts.

Module SearchSpec.

Import PyFacts SortFacts VectorDB SearchFacts Fixtures.

Local Open Scope string_scope.

(** Claim C5, as the code has it.  For every store, query vector, [k]
    (so for every [k > 0]) and metric such that no stored vector scores
    NaN, [search] returns a list in descending order of score, and two
    results of equal score stand in the order in which their keys stand
    in the store, which is the order of insertion. *)
Theorem search_sorted_descending_stable (db : VectorDatabase) (q : vector)
    (k : Z) (dm : metric) :
  scores_are_numbers db q dm ->
  exists res : list (string * float),
    search q k dm db = (inr res, db) /\
    StronglySorted (fun x y => PrimFloat.leb (snd y) (snd x) = true) res /\
    forall x y : string * float,
      before x y res -> PrimFloat.eqb (snd x) (snd y) = true ->
      exists vx vy : vector,
        before (fst x, vx) (fst y, vy) (vectors db) /\
        snd x = dm q vx /\ snd y = dm q vy.
Proof.
  intros Hnum.
  eexists. split; [apply search_run|]. split.
  - rewrite slice_to_firstn. apply StronglySorted_firstn, ranked_descending.
    unfold scores_are_numbers in Hnum. rewrite Forall_map. exact Hnum.
  - intros x y Hb Hxy. rewrite slice_to_firstn in Hb.
    apply before_firstn in Hb. apply (ranked_stable _ Hxy) in Hb.
    apply before_map_inv in Hb as ([ka va] & [kb vb] & <- & <- & Hb).
    exists va, vb. simpl. auto.
Qed.

Lemma search_sorted_descending_stable_witness :
  exists res : list (string * float),
    search [1%float] 3 dot_product_similarity db_ab = (inr res, db_ab) /\
    StronglySorted (fun x y => PrimFloat.leb (snd y) (snd x) = true) res.
Proof.
  destruct (@search_sorted_descending_stable db_ab [1%float] 3
              dot_product_similarity) as (res & Hrun & Hsorted & _).
  - unfold scores_are_numbers, db_ab. simpl.
    repeat constructor; vm_compute; reflexivity.
  - exists res. split; assumption.
Defined.

(** Claim C5, as stated, fails when a score is NaN: with the cosine
    metric and the zero vector stored under ["b"], whose score is NaN,
    [search] returns ["a"] before ["c"] although ["a"] scores less than
    ["c"]. *)
Lemma search_nan_not_descending :
  (0 < 3)%Z /\
  search [1%float; 0%float] 3 cosine_similarity db_zero_vector
    = (inr [("a", cosine_similarity [1%float; 0%float] [1%float; 1%float]);
            ("b", cosine_similarity [1%float; 0%float] [0%float; 0%float]);
            ("c", cosine_similarity [1%float; 0%float] [1%float; 0%float])],
       db_zero_vector) /\
  is_nan (cosine_similarity [1%float; 0%float] [0%float; 0%float]) = true /\
  PrimFloat.ltb (cosine_similarity [1%float; 0%float] [1%float; 1%float])
                (cosine_similarity [1%float; 0%float] [1%float; 0%float]) = true /\
  ~ StronglySorted (fun x y => PrimFloat.leb (snd y) (snd x) = true)
      [("a", cosine_similarity [1%float; 0%float] [1%float; 1%float]);
       ("b", cosine_similarity [1%float; 0%float] [0%float; 0%float]);
       ("c", cosine_similarity [1%float; 0%float] [1%float; 0%float])].
Proof.
  split; [lia|]. split; [vm_compute; reflexivity|].
  split; [vm_compute; reflexivity|]. split; [vm_compute; reflexivity|].
  intros H. inversion H as [|? ? _ Hall]; subst.
  inversion Hall as [|? ? Hb _]; subst.
  vm_compute in Hb. discriminate.
Qed.

(** Claim C2, as the code has it.  [search] with [k = 0] returns an
    empty list, and on an empty store it returns an empty list, without
    an error, for every [k]; with [k < 0] the slice drops the last [-k]
    ranked results, so the list is empty exactly when the store holds at
    most [-k] keys. *)
Theorem search_empty_results (db : VectorDatabase) (q : vector) (k : Z)
    (dm : metric) :
  exists res : list (string * float),
    search q k dm db = (inr res, db) /\
    (k = 0%Z -> res = []) /\
    (vectors db = [] -> res = []) /\
    ((k < 0)%Z ->
     (res = [] <-> (Z.of_nat (List.length (vectors db)) <= - k)%Z)).
Proof.
  eexists. split; [apply search_run|].
  split; [|split].
  - intros ->. apply slice_to_zero.
  - intros ->. simpl. apply slice_to_nil.
  - intros Hk. rewrite slice_to_firstn, sorted_length, length_map.
    set (ranked := sorted _ _ _ _).
    assert (Hlen : List.length ranked = List.length (vectors db))
      by (unfold ranked; rewrite sorted_length, length_map; reflexivity).
    unfold slice_bound. destruct (Z.ltb_spec k 0) as [_|]; [|lia].
    rewrite <- length_zero_iff_nil, length_firstn, Hlen. lia.
Qed.

Lemma search_empty_results_witness :
  exists res : list (string * float),
    search [1%float] 0 dot_product_similarity db_ab = (inr res, db_ab) /\
    res = [].
Proof.
  destruct (search_empty_results db_ab [1%float] 0 dot_product_similarity)
    as (res & Hrun & Hk & _).
  exists res. split; [exact Hrun | apply Hk; reflexivity].
Defined.

(** Claim C2, as stated, fails for a negative [k]: on the store that
    holds ["a"] and ["b"], [search] with [k = -1] returns one result. *)
Lemma search_negative_k_nonempty :
  (-1 <= 0)%Z /\
  search [1%float] (-1) dot_product_similarity db_ab
    = (inr [("b", dot_product_similarity [1%float] [2%float])], db_ab).
Proof.
  split; [lia|]. vm_compute. reflexivity.
Qed.

End SearchSpec.

(** ** VectorDatabase: the token budget *)

Module BudgetFacts.

Import PyFacts VectorDB SearchFacts.

Lemma search_by_text_ok (db : VectorDatabase) (qt : string) (k : Z)
    (dm : metric) (qv : vector) :
  get_embedding (embedding_model db) qt = inr qv ->
  search_by_text qt k dm false db = search qv k dm db.
Proof.
  intros Hq. unfold search_by_text, bind, read_model.
  rewrite Hq. reflexivity.
Qed.

Lemma search_by_text_raises (db : VectorDatabase) (qt : string) (k : Z)
    (dm : metric) (b : bool) (e : exn) :
  get_embedding (embedding_model db) qt = inl e ->
  search_by_text qt k dm b db = (inl e, db).
Proof.
  intros Hq. unfold search_by_text, bind, read_model.
  rewrite Hq. reflexivity.
Qed.

Lemma total_tokens_cons (count : string -> Z) (t : string)
    (ts : list string) :
  total_tokens count (t :: ts) = (count t + total_tokens count ts)%Z.
Proof. reflexivity. Qed.

Lemma total_tokens_app (count : string -> Z) (l1 l2 : list string) :
  total_tokens count (l1 ++ l2)
    = (total_tokens count l1 + total_tokens count l2)%Z.
Proof.
  induction l1 as [|t l1 IH]; [reflexivity|].
  rewrite <- app_comm_cons, !total_tokens_cons, IH. lia.
Qed.

Lemma firstn_succ_nth {A : Type} (n : nat) (l : list A) (x : A) :
  nth_error l n = Some x -> firstn (S n) l = firstn n l ++ [x].
Proof.
  revert l. induction n as [|n IH]; intros [|y l] H; try discriminate.
  - injection H as ->. reflexivity.
  - cbn [firstn]. rewrite <- app_comm_cons. f_equal.
    apply IH. exact H.
Qed.

(** The loop takes the items one by one while the running total stays
    within the limit, and stops at the first item that would pass it. *)
Lemma budget_loop_spec (count : string -> Z) (limit : Z)
    (scored : list (string * float)) (sel : list string) (used : Z) :
  exists n : nat,
    n <= List.length scored /\
    budget_loop count limit scored sel used =
      (sel ++ map fst (firstn n scored),
       (used + total_tokens count (map fst (firstn n scored)))%Z) /\
    (forall m : nat, 0 < m <= n ->
       (used + total_tokens count (map fst (firstn m scored)) <= limit)%Z) /\
    (n < List.length scored ->
       (used + total_tokens count (map fst (firstn (S n) scored)) > limit)%Z).
Proof.
  revert sel used. induction scored as [|[text s] rest IH]; intros sel used.
  - exists 0. simpl. rewrite app_nil_r, Z.add_0_r.
    repeat split; try lia.
  - cbn [budget_loop].
    destruct (Z.gtb_spec (used + count text) limit) as [Hover|Hfit].
    + exists 0. cbn [firstn map]. rewrite app_nil_r.
      unfold total_tokens at 1. simpl fold_right. rewrite Z.add_0_r.
      repeat split; try lia.
      intros _. rewrite total_tokens_cons.
      unfold total_tokens. simpl. lia.
    + destruct (IH (sel ++ [text]) (used + count text)%Z)
        as (n & Hn & Hrun & Hfits & Hstop).
      exists (S n). cbn [firstn map fst List.length].
      rewrite !total_tokens_cons.
      split; [lia|]. split; [|split].
      * rewrite Hrun, <- app_assoc. simpl. f_equal. lia.
      * intros m Hm. destruct m as [|m]; [lia|].
        cbn [firstn map fst]. rewrite total_tokens_cons.
        destruct m as [|m].
        -- unfold total_tokens. simpl. lia.
        -- specialize (Hfits (S m) ltac:(lia)). lia.
      * intros Hlt. specialize (Hstop ltac:(lia)).
        cbn [firstn map fst] in Hstop. lia.
Qed.

(** What [search_by_text_with_token_budget] returns once the query has
    been embedded: the ranked list of [search], a prefix of it, and the
    tokens of that prefix. *)
Lemma budget_run (db : VectorDatabase) (qt : string) (k : Z)
    (count : string -> Z) (mx : Z) (dm : metric) (rs : Z) (qv : vector) :
  get_embedding (embedding_model db) qt = inr qv ->
  exists (ranked : list (string * float)) (n : nat),
    search qv k dm db = (inr ranked, db) /\
    search_by_text_with_token_budget qt k count mx dm rs db =
      (inr (map fst (firstn n ranked),
            total_tokens count (map fst (firstn n ranked)),
            ranked), db) /\
    n <= List.length ranked /\
    (forall m : nat, m <= n ->
       (total_tokens count (map fst (firstn m ranked))
          <= Z.max 0 (mx - rs))%Z) /\
    (n < List.length ranked ->
       (total_tokens count (map fst (firstn (S n) ranked))
          > Z.max 0 (mx - rs))%Z).
Proof.
  intros Hq.
  pose proof (search_run db qv k dm) as Hsearch.
  set (ranked := slice_to _ k) in Hsearch.
  destruct (budget_loop_spec count (Z.max 0 (mx - rs)) ranked [] 0)
    as (n & Hn & Hloop & Hfits & Hstop).
  exists ranked, n. split; [exact Hsearch|].
  split; [|split; [exact Hn|split]].
  - unfold search_by_text_with_token_budget, bind.
    rewrite (search_by_text_ok db qt k dm Hq), Hsearch.
    rewrite Hloop. reflexivity.
  - intros m Hm. destruct m as [|m].
    + simpl. unfold total_tokens. simpl. lia.
    + specialize (Hfits (S m) ltac:(lia)). lia.
  - intros Hlt. specialize (Hstop Hlt). lia.
Qed.

End BudgetFacts.

Module BudgetSpec.

Import PyFacts VectorDB SearchFacts BudgetFacts Fixtures.

Local Open Scope string_scope.

(** Claim C1.  Once the query is embedded, the selection of
    [search_by_text_with_token_budget] is the first [n] texts of the
    ranked list, for the [n] such that every prefix of at most [n] items
    fits in [limit = max(0, max_context_tokens - reserve_tokens)] and, if
    an item of index [n] exists, adding it passes [limit]: the walk stops
    at the first item that does not fit, takes neither it nor a later
    one, and [used_tokens] does not exceed [limit]. *)
Theorem budget_selects_greedy_prefix (db : VectorDatabase) (qt : string)
    (k : Z) (count : string -> Z) (mx : Z) (dm : metric) (rs : Z)
    (qv : vector) :
  get_embedding (embedding_model db) qt = inr qv ->
  exists (ranked : list (string * float)) (n : nat)
         (selected : list string) (used : Z),
    search qv k dm db = (inr ranked, db) /\
    search_by_text_with_token_budget qt k count mx dm rs db =
      (inr (selected, used, ranked), db) /\
    n <= List.length ranked /\
    selected = map fst (firstn n ranked) /\
    used = total_tokens count selected /\
    (used <= Z.max 0 (mx - rs))%Z /\
    (forall m : nat, m <= n ->
       (total_tokens count (map fst (firstn m ranked))
          <= Z.max 0 (mx - rs))%Z) /\
    (forall (text : string) (s : float),
       nth_error ranked n = Some (text, s) ->
       (used + count text > Z.max 0 (mx - rs))%Z).
Proof.
  intros Hq.
  destruct (budget_run db qt k count mx dm rs Hq)
    as (ranked & n & Hsearch & Hrun & Hn & Hfits & Hstop).
  exists ranked, n, (map fst (firstn n ranked)),
    (total_tokens count (map fst (firstn n ranked))).
  repeat (split; [first [assumption | reflexivity | apply Hfits; lia]|]).
  intros text s Hnth.
  assert (Hlt : n < List.length ranked)
    by (apply nth_error_Some; congruence).
  specialize (Hstop Hlt).
  rewrite (firstn_succ_nth _ _ Hnth), map_app, total_tokens_app in Hstop.
  unfold total_tokens at 2 in Hstop. simpl in Hstop. lia.
Qed.

(** The example of the specification, with other scores: token counts
    50, 60 and 1000, and a budget of 100 tokens. *)
Example budget_loop_abc :
  budget_loop
    (fun t => if String.eqb t "A" then 50
              else if String.eqb t "B" then 60 else 1000)%Z
    100 [("A", 0.5%float); ("B", 0.25%float); ("C", 0.125%float)] [] 0
  = (["A"], 50%Z).
Proof. reflexivity. Qed.

Lemma budget_selects_greedy_prefix_witness :
  exists (ranked : list (string * float)) (n : nat)
         (selected : list string) (used : Z),
    search_by_text_with_token_budget "q" 2 count_chars 1
        dot_product_similarity 0 db_ab
      = (inr (selected, used, ranked), db_ab) /\
    selected = map fst (firstn n ranked) /\
    (used <= Z.max 0 (1 - 0))%Z.
Proof.
  destruct (@budget_selects_greedy_prefix db_ab "q" 2 count_chars 1
              dot_product_similarity 0 [1%float] eq_refl)
    as (ranked & n & selected & used & _ & Hrun & _ & Hsel & _ & Hle & _).
  exists ranked, n, selected, used. auto.
Defined.

(** Claim C10.  Once the query is embedded, the [used_tokens] that
    [search_by_text_with_token_budget] returns is the sum of the token
    counts of the returned [selected_texts], and its [scored_results] is
    the whole list that [search_by_text], that is [search] on the query
    vector, returns. *)
Theorem budget_used_is_sum_and_ranked_is_search (db : VectorDatabase)
    (qt : string) (k : Z) (count : string -> Z) (mx : Z) (dm : metric)
    (rs : Z) (qv : vector) :
  get_embedding (embedding_model db) qt = inr qv ->
  exists (selected : list string) (used : Z) (scored : list (string * float)),
    search_by_text_with_token_budget qt k count mx dm rs db =
      (inr (selected, used, scored), db) /\
    used = total_tokens count selected /\
    search_by_text qt k dm false db = (inr scored, db) /\
    search qv k dm db = (inr scored, db).
Proof.
  intros Hq.
  destruct (budget_run db qt k count mx dm rs Hq)
    as (ranked & n & Hsearch & Hrun & _).
  exists (map fst (firstn n ranked)),
    (total_tokens count (map fst (firstn n ranked))), ranked.
  split; [exact Hrun|]. split; [reflexivity|].
  split; [|exact Hsearch].
  rewrite (search_by_text_ok db qt k dm Hq). exact Hsearch.
Qed.

Lemma budget_used_is_sum_and_ranked_is_search_witness :
  exists (selected : list string) (used : Z) (scored : list (string * float)),
    search_by_text_with_token_budget "q" 2 count_chars 1
        dot_product_similarity 0 db_ab
      = (inr (selected, used, scored), db_ab) /\
    used = total_tokens count_chars selected /\
    search [1%float] 2 dot_product_similarity db_ab = (inr scored, db_ab).
Proof.
  destruct (@budget_used_is_sum_and_ranked_is_search db_ab "q" 2 count_chars
              1 dot_product_similarity 0 [1%float] eq_refl)
    as (selected & used & scored & Hrun & Hused & _ & Hsearch).
  exists selected, used, scored. auto.
Defined.

End BudgetSpec.

Module BudgetEdgeSpec.

Import PyFacts VectorDB SearchFacts BudgetFacts Fixtures.

Local Open Scope string_scope.

Lemma total_tokens_nonneg (count : string -> Z) (l : list string) :
  (forall t, 0 <= count t)%Z -> (0 <= total_tokens count l)%Z.
Proof.
  intros Hc. induction l as [|t l IH]; [unfold total_tokens; simpl; lia|].
  rewrite total_tokens_cons. specialize (Hc t). lia.
Qed.

Lemma total_tokens_zero (count : string -> Z) (l : list string) :
  (forall t, 0 <= count t)%Z -> (total_tokens count l <= 0)%Z ->
  Forall (fun t => count t = 0%Z) l.
Proof.
  intros Hc. induction l as [|t l IH]; intros Hle; constructor.
  - rewrite total_tokens_cons in Hle.
    pose proof (@total_tokens_nonneg count l Hc). specialize (Hc t). lia.
  - apply IH. rewrite total_tokens_cons in Hle. specialize (Hc t). lia.
Qed.

Lemma leading_run_firstn (p : string -> bool) (n : nat)
    (texts : list string) :
  Forall (fun t => p t = true) (firstn n texts) ->
  (forall t, nth_error texts n = Some t -> p t = false) ->
  leading_run p texts = firstn n texts.
Proof.
  revert texts. induction n as [|n IH]; intros [|t texts] Hall Hstop;
    try reflexivity.
  - cbn [leading_run firstn]. rewrite (Hstop t eq_refl). reflexivity.
  - cbn [firstn] in Hall. inversion Hall as [|? ? Ht Hrest]; subst.
    cbn [leading_run firstn]. rewrite Ht. f_equal.
    apply IH; [exact Hrest|]. intros u Hu. apply Hstop. exact Hu.
Qed.

(** Claim C4, as the code has it.  Once the query is embedded: if the
    first ranked item's token count alone exceeds
    [limit = max(0, max_context_tokens - reserve_tokens)], the selection
    is empty with zero tokens used; and if [limit] is 0 and the counter
    gives no negative count, zero tokens are used and the selection is
    the leading run of the ranked texts that count zero tokens. *)
Theorem budget_edge_cases (db : VectorDatabase) (qt : string) (k : Z)
    (count : string -> Z) (mx : Z) (dm : metric) (rs : Z) (qv : vector) :
  get_embedding (embedding_model db) qt = inr qv ->
  exists (selected : list string) (used : Z)
         (ranked : list (string * float)),
    search qv k dm db = (inr ranked, db) /\
    search_by_text_with_token_budget qt k count mx dm rs db =
      (inr (selected, used, ranked), db) /\
    (forall (text : string) (s : float) (rest : list (string * float)),
       ranked = (text, s) :: rest ->
       (count text > Z.max 0 (mx - rs))%Z ->
       selected = [] /\ used = 0%Z) /\
    (Z.max 0 (mx - rs) = 0%Z -> (forall t, 0 <= count t)%Z ->
       used = 0%Z /\
       Forall (fun t => count t = 0%Z) selected /\
       selected = leading_run (fun t => (count t =? 0)%Z) (map fst ranked)).
Proof.
  intros Hq.
  destruct (budget_run db qt k count mx dm rs Hq)
    as (ranked & n & Hsearch & Hrun & Hn & Hfits & Hstop).
  exists (map fst (firstn n ranked)),
    (total_tokens count (map fst (firstn n ranked))), ranked.
  split; [exact Hsearch|]. split; [exact Hrun|]. split.
  - intros text s rest -> Hover.
    destruct n as [|n]; [split; reflexivity|].
    specialize (Hfits 1%nat ltac:(lia)).
    unfold total_tokens in Hfits. simpl in Hfits. lia.
  - intros Hlim Hc. pose proof (Hfits n (Nat.le_refl n)) as Hfit.
    rewrite Hlim in Hfit, Hstop.
    pose proof (@total_tokens_nonneg count (map fst (firstn n ranked)) Hc).
    pose proof (@total_tokens_zero count (map fst (firstn n ranked)) Hc Hfit)
      as Hzero.
    split; [lia|]. split; [exact Hzero|].
    rewrite <- firstn_map. symmetry. apply leading_run_firstn.
    + rewrite firstn_map. apply Forall_impl with (2 := Hzero).
      intros t Ht. apply Z.eqb_eq, Ht.
    + intros t Ht. apply Z.eqb_neq.
      assert (Hlt : n < List.length ranked).
      { rewrite <- (length_map fst). apply nth_error_Some. congruence. }
      specialize (Hstop Hlt).
      rewrite <- firstn_map, (firstn_succ_nth _ _ Ht) in Hstop.
      rewrite total_tokens_app, firstn_map in Hstop.
      unfold total_tokens at 2 in Hstop. simpl in Hstop. lia.
Qed.

Lemma budget_edge_cases_witness :
  exists (selected : list string) (used : Z)
         (ranked : list (string * float)),
    search_by_text_with_token_budget "q" 1 count_chars 0
        dot_product_similarity 0 db_blank
      = (inr (selected, used, ranked), db_blank) /\
    used = 0%Z /\ selected = [""].
Proof.
  destruct (@budget_edge_cases db_blank "q" 1 count_chars 0
              dot_product_similarity 0 [1%float] eq_refl)
    as (selected & used & ranked & Hsearch & Hrun & _ & Hzero).
  exists selected, used, ranked. split; [exact Hrun|].
  destruct Hzero as (Hused & _ & Hsel);
    [reflexivity | intros t; unfold count_chars; lia |].
  split; [exact Hused|]. rewrite Hsel.
  assert (E : ranked = [("", dot_product_similarity [1%float] [1%float])]).
  { change (search [1%float] 1 dot_product_similarity db_blank)
      with (inr (A := exn)
                [("", dot_product_similarity [1%float] [1%float])],
            db_blank) in Hsearch.
    injection Hsearch as <-. reflexivity. }
  rewrite E. reflexivity.
Defined.

(** Claim C4, as stated, fails when [limit] is 0 and a text counts zero
    tokens: on the store whose only key is the empty text, with a counter
    of characters and [max_context_tokens = 0], the selection holds that
    text. *)
Lemma budget_zero_limit_selects_blank :
  Z.max 0 (0 - 0) = 0%Z /\
  search_by_text_with_token_budget "q" 1 count_chars 0
      dot_product_similarity 0 db_blank
    = (inr ([""], 0%Z, [("", dot_product_similarity [1%float] [1%float])]),
       db_blank).
Proof.
  split; reflexivity.
Qed.

End BudgetEdgeSpec.

(** ** VectorDatabase: effects on the store *)

Module StoreSpec.

Import PyFacts VectorDB SearchFacts BudgetFacts Fixtures.

Local Open Scope string_scope.

(** Claim C9.  The queries [search], [search_by_text],
    [retrieve_from_key] and [search_by_text_with_token_budget], whether
    they return or raise, leave [self.vectors] as it was: the same keys,
    each with the same vector. *)
Theorem queries_leave_vectors_unchanged (db : VectorDatabase) (q : vector)
    (qt key : string) (k : Z) (dm : metric) (as_text : bool)
    (count : string -> Z) (mx rs : Z) :
  vectors (snd (search q k dm db)) = vectors db /\
  vectors (snd (search_by_text qt k dm as_text db)) = vectors db /\
  vectors (snd (retrieve_from_key key db)) = vectors db /\
  vectors (snd (search_by_text_with_token_budget qt k count mx dm rs db))
    = vectors db.
Proof.
  split; [reflexivity|]. split; [|split; [reflexivity|]].
  - unfold search_by_text, bind, read_model.
    destruct (get_embedding (embedding_model db) qt); reflexivity.
  - destruct (get_embedding (embedding_model db) qt) as [e|qv] eqn:Hq.
    + unfold search_by_text_with_token_budget, bind.
      rewrite (search_by_text_raises db qt k dm false Hq). reflexivity.
    + destruct (budget_run db qt k count mx dm rs Hq)
        as (ranked & n & _ & Hrun & _).
      rewrite Hrun. reflexivity.
Qed.

(** The loop of [abuild_from_list]: the pairs are inserted in turn, and
    the lengths are compared when one list runs out. *)
Lemma for_zip_strict_insert (texts : list string) (embs : list vector)
    (db : VectorDatabase) :
  for_zip_strict texts embs (fun text embedding => insert text embedding) db
  = ((if Nat.eqb (List.length texts) (List.length embs)
      then inr tt else inl ValueError),
     mkVectorDatabase (insert_all (combine texts embs) (vectors db))
                      (embedding_model db)).
Proof.
  revert embs db. induction texts as [|t texts IH]; intros [|e embs] db;
    try (destruct db; reflexivity).
  cbn [for_zip_strict]. unfold bind at 1. unfold insert at 1.
  unfold bind, read_vectors, write_vectors. rewrite IH. reflexivity.
Qed.

(** With as many vectors as texts the build returns the object, which
    holds each text with its vector, in the order of the texts. *)
Example abuild_x_y :
  abuild_from_list ["x"; "y"] (init unit_model) =
    (inr (mkVectorDatabase [("x", [1%float]); ("y", [1%float])] unit_model),
     mkVectorDatabase [("x", [1%float]); ("y", [1%float])] unit_model).
Proof. reflexivity. Qed.

(** Claim C3, as the code has it.  When the embedding client returns a
    number of vectors other than the number of texts,
    [abuild_from_list] raises [ValueError], and the store then holds what
    it held before with the pairs of the first texts and vectors, as many
    as the shorter list has, inserted. *)
Theorem abuild_mismatch_raises_after_inserts (db : VectorDatabase)
    (texts : list string) (embs : list vector) :
  async_get_embeddings (embedding_model db) texts = inr embs ->
  List.length embs <> List.length texts ->
  abuild_from_list texts db =
    (inl ValueError,
     mkVectorDatabase (insert_all (combine texts embs) (vectors db))
                      (embedding_model db)).
Proof.
  intros Hemb Hlen. unfold abuild_from_list, bind, read_model.
  rewrite Hemb. unfold call, ret.
  rewrite for_zip_strict_insert.
  destruct (Nat.eqb_spec (List.length texts) (List.length embs)); [lia|].
  reflexivity.
Qed.

Lemma abuild_mismatch_raises_after_inserts_witness :
  abuild_from_list ["x"; "y"] empty_db =
    (inl ValueError,
     mkVectorDatabase (insert_all (combine ["x"; "y"] [[1%float]]) [])
                      short_model).
Proof.
  apply (@abuild_mismatch_raises_after_inserts empty_db ["x"; "y"] [[1%float]]).
  - reflexivity.
  - simpl. lia.
Defined.

(** Claim C3, as stated, fails: on an empty store, with two texts and a
    client that returns one vector, the call raises and the store has
    gained the first text. *)
Lemma abuild_mismatch_keeps_partial_inserts :
  async_get_embeddings (embedding_model empty_db) ["x"; "y"] = inr [[1%float]] /\
  fst (abuild_from_list ["x"; "y"] empty_db) = inl ValueError /\
  vectors (snd (abuild_from_list ["x"; "y"] empty_db)) = [("x", [1%float])] /\
  vectors (snd (abuild_from_list ["x"; "y"] empty_db)) <> vectors empty_db.
Proof.
  repeat split; try reflexivity.
  discriminate.
Qed.

End StoreSpec.

(** ** The similarity metrics *)

Module MetricFacts.

Import FloatFacts.

Local Open Scope float_scope.

(** A sum that starts from zero and adds zeros is zero. *)
Lemma np_sum_zeros (l : vector) : Forall (fun x => x = 0) l -> np_sum l = 0.
Proof.
  unfold np_sum. induction 1 as [|x l Hx Hl IH]; [reflexivity|].
  subst x. cbn [fold_left]. change (0 + 0) with 0. exact IH.
Qed.

Lemma np_sub_self (v : vector) :
  finite_vector v -> Forall (fun x => x = 0) (np_sub v v).
Proof.
  unfold np_sub. induction 1 as [|x v Hx Hv IH]; [constructor|].
  cbn [combine map fst snd]. constructor; [apply sub_diag, Hx | exact IH].
Qed.

Lemma np_dot_zeros (d : vector) :
  Forall (fun x => x = 0) d -> np_dot d d = 0.
Proof.
  intros H. unfold np_dot. apply np_sum_zeros.
  induction H as [|x d Hx Hd IH]; [constructor|].
  subst x. cbn [combine map fst snd]. constructor; [reflexivity | exact IH].
Qed.

Lemma np_abs_zeros (d : vector) :
  Forall (fun x => x = 0) d -> Forall (fun x => x = 0) (np_abs d).
Proof.
  unfold np_abs. induction 1 as [|x d Hx Hd IH]; [constructor|].
  subst x. cbn [map]. constructor; [reflexivity | exact IH].
Qed.

(** The score of a vector of numbers against itself, under the two
    distances. *)
Lemma euclidean_self (v : vector) :
  finite_vector v -> euclidean_similarity v v = (- 0).
Proof.
  intros Hv. unfold euclidean_similarity, np_norm.
  rewrite (np_dot_zeros (np_sub_self Hv)). reflexivity.
Qed.

Lemma manhattan_self (v : vector) :
  finite_vector v -> manhattan_similarity v v = (- 0).
Proof.
  intros Hv. unfold manhattan_similarity.
  rewrite (np_sum_zeros (np_abs_zeros (np_sub_self Hv))). reflexivity.
Qed.

(** A sum of absolute values is not below zero. *)
Lemma fold_add_not_neg (l : vector) (acc : float) :
  not_neg (Prim2SF acc) = true ->
  Forall (fun x => not_neg (Prim2SF x) = true) l ->
  not_neg (Prim2SF (fold_left add l acc)) = true.
Proof.
  intros Hacc Hl. revert acc Hacc.
  induction Hl as [|x l Hx Hl IH]; intros acc Hacc; [exact Hacc|].
  cbn [fold_left]. apply IH. rewrite add_spec.
  apply SFadd_not_neg; assumption.
Qed.

Lemma np_sum_abs_not_neg (d : vector) :
  not_neg (Prim2SF (np_sum (np_abs d))) = true.
Proof.
  unfold np_sum. apply fold_add_not_neg; [reflexivity|].
  unfold np_abs. apply Forall_map, Forall_forall. intros x _.
  rewrite abs_spec. apply SFabs_not_neg.
Qed.

(** The opposite of a value that is not below zero is not above zero. *)
Lemma opp_not_above_zero (x : float) :
  not_neg (Prim2SF x) = true -> (0 <? - x) = false.
Proof.
  intros H. rewrite ltb_spec, opp_spec.
  change (Prim2SF 0) with (S754_zero false).
  apply SFltb_zero_opp, H.
Qed.

Lemma euclidean_not_above_zero (v w : vector) :
  (0 <? euclidean_similarity v w) = false.
Proof.
  unfold euclidean_similarity, np_norm. apply opp_not_above_zero.
  rewrite sqrt_spec. apply SFsqrt_not_neg.
Qed.

Lemma manhattan_not_above_zero (v w : vector) :
  (0 <? manhattan_similarity v w) = false.
Proof.
  unfold manhattan_similarity. apply opp_not_above_zero.
  apply np_sum_abs_not_neg.
Qed.

(** A score that is not above zero and is a number is [<= 0]. *)
Lemma not_above_zero_leb (x : float) :
  (0 <? x) = false -> is_nan x = false -> (x <=? 0) = true.
Proof.
  intros H Hn. apply leb_of_not_ltb; [reflexivity | exact Hn | exact H].
Qed.

End MetricFacts.

Module MetricSpec.

Import FloatFacts MetricFacts.

Local Open Scope float_scope.

(** Claim C7, as the code has it.  For vectors [v] and [w] of one
    length: under the euclidean and the manhattan metric no score is
    above 0, a score that is not NaN is [<= 0], and for [v] with no NaN or
    infinite component the score of [v] against itself equals 0, which is
    then the maximum.  Nothing of the kind is stated for the cosine and
    the dot-product metric. *)
Theorem self_similarity_bounds (v w : vector) :
  List.length w = List.length v ->
  ((0 <? euclidean_similarity v w) = false /\
   (is_nan (euclidean_similarity v w) = false ->
      (euclidean_similarity v w <=? 0) = true)) /\
  ((0 <? manhattan_similarity v w) = false /\
   (is_nan (manhattan_similarity v w) = false ->
      (manhattan_similarity v w <=? 0) = true)) /\
  (finite_vector v ->
     (euclidean_similarity v v =? 0) = true /\
     (manhattan_similarity v v =? 0) = true).
Proof.
  intros _. split; [|split].
  - split; [apply euclidean_not_above_zero|].
    apply not_above_zero_leb, euclidean_not_above_zero.
  - split; [apply manhattan_not_above_zero|].
    apply not_above_zero_leb, manhattan_not_above_zero.
  - intros Hv. rewrite (euclidean_self Hv), (manhattan_self Hv).
    split; reflexivity.
Qed.

Lemma self_similarity_bounds_witness :
  (euclidean_similarity [3; 4] [1; 0] <=? 0) = true /\
  (manhattan_similarity [3; 4] [1; 0] <=? 0) = true /\
  (euclidean_similarity [3; 4] [3; 4] =? 0) = true /\
  (manhattan_similarity [3; 4] [3; 4] =? 0) = true.
Proof.
  destruct (@self_similarity_bounds [3; 4] [1; 0] eq_refl)
    as ([_ He] & [_ Hm] & Hself).
  split; [apply He; vm_compute; reflexivity|].
  split; [apply Hm; vm_compute; reflexivity|].
  apply Hself. unfold finite_vector.
  repeat constructor; vm_compute; reflexivity.
Defined.

(** Claim C7, as stated, fails for the dot product and for the cosine:
    the dot product of [[1]] with itself is below its dot product with
    [[2]], and, by rounding, the cosine of [[1; 1]] with itself is
    0.9999999999999998, below its cosine with [[3; 3]], which is 1.  For
    the two distances it fails on a vector with an infinite component,
    whose score against itself is NaN. *)
Lemma self_score_not_maximal :
  List.length [2] = List.length [1] /\
  (DISTANCE_METRICS dot_product [1] [1]
     <? DISTANCE_METRICS dot_product [1] [2]) = true /\
  List.length [3; 3] = List.length [1; 1] /\
  (DISTANCE_METRICS cosine [1; 1] [1; 1]
     <? DISTANCE_METRICS cosine [1; 1] [3; 3]) = true /\
  DISTANCE_METRICS cosine [1; 1] [3; 3] = 1 /\
  is_nan (DISTANCE_METRICS euclidean [infinity] [infinity]) = true /\
  (DISTANCE_METRICS euclidean [infinity] [infinity] =? 0) = false /\
  (DISTANCE_METRICS euclidean [infinity] [infinity] <=? 0) = false /\
  (DISTANCE_METRICS manhattan [infinity] [infinity] =? 0) = false.
Proof.
  repeat split; vm_compute; reflexivity.
Qed.

End MetricSpec.

(** ** The store as a dictionary: insert and lookup *)

Module DictFacts.

Section DictLemmas.
Variable V : Type.

Lemma dict_get_set_same (k : string) (v : V) (d : dict V) :
  dict_get k (dict_set k v d) = Some v.
Proof.
  induction d as [|[k' v'] d IH]; simpl.
  - rewrite String.eqb_refl. reflexivity.
  - destruct (String.eqb_spec k k') as [->|Hne]; simpl.
    + rewrite String.eqb_refl. reflexivity.
    + destruct (String.eqb_spec k k'); [contradiction | exact IH].
Qed.

Lemma dict_get_set_other (k k' : string) (v : V) (d : dict V) :
  k' <> k -> dict_get k' (dict_set k v d) = dict_get k' d.
Proof.
  intros Hne. induction d as [|[k0 v0] d IH]; simpl.
  - destruct (String.eqb_spec k' k); [contradiction | reflexivity].
  - destruct (String.eqb_spec k k0) as [->|Hk]; simpl.
    + destruct (String.eqb_spec k' k0); [contradiction | reflexivity].
    + destruct (String.eqb_spec k' k0); [reflexivity | exact IH].
Qed.

Lemma dict_set_set (k : string) (v1 v2 : V) (d : dict V) :
  dict_set k v2 (dict_set k v1 d) = dict_set k v2 d.
Proof.
  induction d as [|[k' v'] d IH]; simpl.
  - rewrite String.eqb_refl. reflexivity.
  - destruct (String.eqb_spec k k') as [->|Hne]; simpl.
    + rewrite String.eqb_refl. reflexivity.
    + destruct (String.eqb_spec k k'); [contradiction|]. rewrite IH.
      reflexivity.
Qed.

Lemma dict_get_None (k : string) (d : dict V) :
  dict_get k d = None <-> ~ In k (map fst d).
Proof.
  induction d as [|[k' v'] d IH]; simpl.
  - split; [intros _ [] | reflexivity].
  - destruct (String.eqb_spec k k') as [->|Hne].
    + split; [discriminate | intros H; exfalso; apply H; left; reflexivity].
    + rewrite IH. split.
      * intros H [E|Hin]; [congruence | exact (H Hin)].
      * intros H Hin. apply H. right. exact Hin.
Qed.

Lemma dict_get_In (k : string) (v : V) (d : dict V) :
  NoDup (map fst d) -> In (k, v) d -> dict_get k d = Some v.
Proof.
  induction d as [|[k' v'] d IH]; simpl; intros Hnd Hin; [contradiction|].
  inversion Hnd as [|? ? Hnotin Hnd']; subst.
  destruct Hin as [E|Hin].
  - injection E as -> ->. rewrite String.eqb_refl. reflexivity.
  - destruct (String.eqb_spec k k') as [->|Hne].
    + exfalso. apply Hnotin. apply (in_map fst) in Hin. exact Hin.
    + apply IH; assumption.
Qed.

Lemma dict_get_Some_In (k : string) (v : V) (d : dict V) :
  dict_get k d = Some v -> In (k, v) d.
Proof.
  induction d as [|[k' v'] d IH]; simpl; [discriminate|].
  destruct (String.eqb_spec k k') as [->|Hne].
  - intros H. injection H as ->. left. reflexivity.
  - intros H. right. apply IH, H.
Qed.
End DictLemmas.

End DictFacts.

(** ** VectorDatabase: insert, lookup and the ranking *)

Module StoreExtra.

Import PyFacts SortFacts VectorDB SearchFacts DictFacts Fixtures.

Local Open Scope string_scope.

(** Runs the reads and writes of a method on the object. *)
Ltac run_methods :=
  cbv [bind insert retrieve_from_key read_vectors write_vectors read_model
       ret raise];
  cbn [fst snd vectors embedding_model].

(** Property X1.
    After [insert(key, v)], [retrieve_from_key(key)] returns [v]. *)
Theorem insert_then_retrieve (db : VectorDatabase) (key : string)
    (v : vector) :
  (insert key v ;;; retrieve_from_key key) db
    = (inr (Some v), snd (insert key v db)).
Proof.
  run_methods. rewrite dict_get_set_same. reflexivity.
Qed.

(** Property X2.
    [insert(key, v)] leaves what every other key retrieves as it was. *)
Theorem insert_keeps_other_keys (db : VectorDatabase) (key key' : string)
    (v : vector) :
  key' <> key ->
  fst (retrieve_from_key key' (snd (insert key v db)))
    = fst (retrieve_from_key key' db).
Proof.
  intros Hne. run_methods. rewrite dict_get_set_other by exact Hne.
  reflexivity.
Qed.

Lemma insert_keeps_other_keys_witness :
  fst (retrieve_from_key "a" (snd (insert "b" [5%float] db_ab)))
    = fst (retrieve_from_key "a" db_ab).
Proof.
  apply (@insert_keeps_other_keys db_ab "b" "a" [5%float]). discriminate.
Defined.

(** Property X3.
    Two inserts under one key leave the store as the second alone would:
    the last vector wins and the key keeps a single entry. *)
Theorem insert_twice_last_wins (db : VectorDatabase) (key : string)
    (v1 v2 : vector) :
  snd ((insert key v1 ;;; insert key v2) db) = snd (insert key v2 db) /\
  fst (retrieve_from_key key (snd ((insert key v1 ;;; insert key v2) db)))
    = inr (Some v2).
Proof.
  run_methods. rewrite dict_set_set, dict_get_set_same. split; reflexivity.
Qed.

(** Property X4.
    [insert] keeps the keys distinct, keeps the place of a key that is
    already stored, and puts a new key last. *)
Theorem insert_key_order (db : VectorDatabase) (key : string) (v : vector) :
  NoDup (map fst (vectors db)) ->
  NoDup (map fst (vectors (snd (insert key v db)))) /\
  (In key (map fst (vectors db)) ->
     map fst (vectors (snd (insert key v db))) = map fst (vectors db)) /\
  (~ In key (map fst (vectors db)) ->
     map fst (vectors (snd (insert key v db)))
       = (map fst (vectors db) ++ [key])%list).
Proof.
  intros Hnd. run_methods.
  split; [apply dict_set_NoDup, Hnd|].
  rewrite dict_set_keys.
  destruct (existsb (String.eqb key) (map fst (vectors db))) eqn:He.
  - split; [reflexivity|]. intros Hnot. exfalso. apply Hnot.
    apply existsb_exists in He as (x & Hx & Heq).
    apply String.eqb_eq in Heq. subst x. exact Hx.
  - split; [|reflexivity]. intros Hin.
    assert (existsb (String.eqb key) (map fst (vectors db)) = true);
      [|congruence].
    apply existsb_exists. exists key. split; [exact Hin|].
    apply String.eqb_refl.
Qed.

Lemma insert_key_order_witness :
  NoDup (map fst (vectors (snd (insert "a" [7%float] db_ab)))) /\
  map fst (vectors (snd (insert "a" [7%float] db_ab))) = ["a"; "b"] /\
  map fst (vectors (snd (insert "c" [7%float] db_ab))) = ["a"; "b"; "c"].
Proof.
  assert (Hnd : NoDup (map fst (vectors db_ab))).
  { simpl. repeat constructor; simpl; intuition discriminate. }
  destruct (@insert_key_order db_ab "a" [7%float] Hnd) as (H1 & H2 & _).
  destruct (@insert_key_order db_ab "c" [7%float] Hnd) as (_ & _ & H3).
  split; [exact H1|]. split.
  - apply H2. simpl. left. reflexivity.
  - apply H3. simpl. intuition discriminate.
Defined.

(** Property X5.
    [retrieve_from_key] returns [None], and raises nothing, exactly when
    the key is not stored; it returns the stored vector otherwise. *)
Theorem retrieve_missing_key (db : VectorDatabase) (key : string) :
  (fst (retrieve_from_key key db) = inr None
     <-> ~ In key (map fst (vectors db))) /\
  (forall v, fst (retrieve_from_key key db) = inr (Some v)
     -> In (key, v) (vectors db)).
Proof.
  run_methods. split.
  - rewrite <- dict_get_None. split; [intros H; injection H; auto|].
    intros H. rewrite H. reflexivity.
  - intros v H. injection H as H. apply dict_get_Some_In, H.
Qed.

(** Property X6.
    For [k >= 0], [search] returns [min(k, n)] results, [n] being the
    number of stored keys. *)
Theorem search_result_count (db : VectorDatabase) (q : vector) (k : Z)
    (dm : metric) :
  (0 <= k)%Z ->
  exists res : list (string * float),
    search q k dm db = (inr res, db) /\
    List.length res = Nat.min (Z.to_nat k) (List.length (vectors db)).
Proof.
  intros Hk. eexists. split; [apply search_run|].
  rewrite slice_to_firstn, length_firstn, sorted_length, length_map.
  rewrite slice_bound_nonneg by exact Hk. lia.
Qed.

Lemma search_result_count_witness :
  exists res : list (string * float),
    search [1%float] 1 dot_product_similarity db_ab = (inr res, db_ab) /\
    List.length res = 1.
Proof.
  apply (@search_result_count db_ab [1%float] 1 dot_product_similarity). lia.
Defined.

(** Property X7.
    Every result of [search] is a stored key with the score of the
    metric between the query and the vector stored under that key. *)
Theorem search_results_are_stored (db : VectorDatabase) (q : vector) (k : Z)
    (dm : metric) (res : list (string * float)) (key : string) (s : float) :
  NoDup (map fst (vectors db)) ->
  search q k dm db = (inr res, db) ->
  In (key, s) res ->
  exists v : vector,
    retrieve_from_key key db = (inr (Some v), db) /\ s = dm q v.
Proof.
  intros Hnd Hrun Hin. rewrite search_run in Hrun. injection Hrun as <-.
  rewrite slice_to_firstn in Hin.
  assert (Hs : In (key, s)
                 (map (fun kv => (fst kv, dm q (snd kv))) (vectors db))).
  { apply (Permutation_in (l := sorted score_ltb (@snd string float) true
             (map (fun kv => (fst kv, dm q (snd kv))) (vectors db)))).
    - apply sorted_perm.
    - rewrite <- (firstn_skipn (slice_bound
        (List.length (sorted score_ltb (@snd string float) true
           (map (fun kv => (fst kv, dm q (snd kv))) (vectors db)))) k)).
      apply in_or_app. left. exact Hin. }
  apply in_map_iff in Hs as ([key' v] & E & Hv). simpl in E.
  injection E as -> <-.
  exists v. split; [|reflexivity].
  run_methods.
  rewrite (@dict_get_In _ _ _ _ Hnd Hv). reflexivity.
Qed.

Lemma search_results_are_stored_witness :
  exists v : vector,
    retrieve_from_key "b" db_ab = (inr (Some v), db_ab) /\
    dot_product_similarity [1%float] [2%float]
      = dot_product_similarity [1%float] v.
Proof.
  apply (@search_results_are_stored db_ab [1%float] 1 dot_product_similarity
           [("b", dot_product_similarity [1%float] [2%float])]).
  - simpl. repeat constructor; simpl; intuition discriminate.
  - vm_compute. reflexivity.
  - left. reflexivity.
Defined.

End StoreExtra.

Module RankingExtra.

Import PyFacts SortFacts VectorDB SearchFacts DictFacts BudgetFacts Fixtures.

Local Open Scope string_scope.

Lemma StronglySorted_app_inv {A : Type} (R : A -> A -> Prop)
    (l1 l2 : list A) (x y : A) :
  StronglySorted R (l1 ++ l2) -> In x l1 -> In y l2 -> R x y.
Proof.
  induction l1 as [|z l1 IH]; simpl; intros Hs Hx Hy; [contradiction|].
  inversion Hs as [|? ? Hs' Hall]; subst.
  destruct Hx as [->|Hx].
  - rewrite Forall_forall in Hall. apply Hall, in_or_app. right. exact Hy.
  - apply IH; assumption.
Qed.

(** The scores of the whole store, ranked: what [search] slices. *)
Lemma search_is_prefix_of_ranking (db : VectorDatabase) (q : vector) (k : Z)
    (dm : metric) :
  search q k dm db =
    (inr (firstn (slice_bound (List.length (vectors db)) k)
            (sorted score_ltb (@snd string float) true
               (map (fun kv => (fst kv, dm q (snd kv))) (vectors db)))),
     db).
Proof.
  rewrite search_run, slice_to_firstn, sorted_length, length_map.
  reflexivity.
Qed.

(** Property X8.
    When no stored vector scores NaN, no stored key left out of the
    results of [search] scores above a returned one. *)
Theorem search_returns_top_scores (db : VectorDatabase) (q : vector) (k : Z)
    (dm : metric) (res : list (string * float)) (x : string * float)
    (key : string) (v : vector) :
  scores_are_numbers db q dm ->
  search q k dm db = (inr res, db) ->
  In x res ->
  In (key, v) (vectors db) ->
  ~ In (key, dm q v) res ->
  PrimFloat.leb (dm q v) (snd x) = true.
Proof.
  intros Hnum Hrun Hx Hkv Hnot.
  rewrite search_is_prefix_of_ranking in Hrun. injection Hrun as <-.
  set (scores := map (fun kv => (fst kv, dm q (snd kv))) (vectors db)) in *.
  set (ranked := sorted score_ltb (@snd string float) true scores) in *.
  set (n := slice_bound (List.length (vectors db)) k) in *.
  assert (Hy : In (key, dm q v) ranked).
  { apply (Permutation_in (l := scores)).
    - symmetry. apply sorted_perm.
    - unfold scores. apply in_map_iff. exists (key, v). auto. }
  rewrite <- (firstn_skipn n ranked) in Hy.
  apply in_app_or in Hy as [Hy|Hy]; [contradiction|].
  assert (Hok : Forall (fun x => is_nan (snd x) = false) scores)
    by (unfold scores; rewrite Forall_map; exact Hnum).
  pose proof (ranked_descending Hok) as Hs. fold ranked in Hs.
  rewrite <- (firstn_skipn n ranked) in Hs.
  exact (@StronglySorted_app_inv _ _ _ _ x (key, dm q v) Hs Hx Hy).
Qed.

Lemma search_returns_top_scores_witness :
  PrimFloat.leb (dot_product_similarity [1%float] [1%float])
    (snd ("b", dot_product_similarity [1%float] [2%float])) = true.
Proof.
  apply (@search_returns_top_scores db_ab [1%float] 1 dot_product_similarity
           [("b", dot_product_similarity [1%float] [2%float])]
           ("b", dot_product_similarity [1%float] [2%float]) "a"
           [1%float]).
  - unfold scores_are_numbers, db_ab. simpl.
    repeat constructor; vm_compute; reflexivity.
  - vm_compute. reflexivity.
  - left. reflexivity.
  - left. reflexivity.
  - intros [H|[]]. discriminate.
Defined.

(** Property X9.
    Asking for more results only adds results at the end: for
    [0 <= k <= k'], the results for [k] are the first [k] of the results
    for [k']. *)
Theorem search_prefix_in_k (db : VectorDatabase) (q : vector) (k k' : Z)
    (dm : metric) :
  (0 <= k <= k')%Z ->
  exists res res' : list (string * float),
    search q k dm db = (inr res, db) /\
    search q k' dm db = (inr res', db) /\
    res = firstn (Z.to_nat k) res'.
Proof.
  intros Hk. do 2 eexists.
  split; [apply search_is_prefix_of_ranking|].
  split; [apply search_is_prefix_of_ranking|].
  rewrite !slice_bound_nonneg by lia. rewrite firstn_firstn.
  f_equal. lia.
Qed.

Lemma search_prefix_in_k_witness :
  exists res res' : list (string * float),
    search [1%float] 1 dot_product_similarity db_ab = (inr res, db_ab) /\
    search [1%float] 2 dot_product_similarity db_ab = (inr res', db_ab) /\
    res = firstn 1 res'.
Proof.
  apply (@search_prefix_in_k db_ab [1%float] 1 2 dot_product_similarity). lia.
Defined.

Lemma search_whole_ranking (db : VectorDatabase) (q : vector) (k : Z)
    (dm : metric) :
  (Z.of_nat (List.length (vectors db)) <= k)%Z ->
  search q k dm db =
    (inr (sorted score_ltb (@snd string float) true
            (map (fun kv => (fst kv, dm q (snd kv))) (vectors db))), db).
Proof.
  intros Hk. rewrite search_is_prefix_of_ranking.
  rewrite slice_bound_nonneg by lia.
  rewrite firstn_all2 by (rewrite sorted_length, length_map; lia).
  reflexivity.
Qed.

(** Property X10.
    With [k] at least the number of stored keys, [search] returns every
    stored key once, with its score. *)
Theorem search_all_is_permutation (db : VectorDatabase) (q : vector) (k : Z)
    (dm : metric) :
  (Z.of_nat (List.length (vectors db)) <= k)%Z ->
  exists res : list (string * float),
    search q k dm db = (inr res, db) /\
    Permutation res
      (map (fun kv => (fst kv, dm q (snd kv))) (vectors db)).
Proof.
  intros Hk. eexists. split; [apply search_whole_ranking, Hk|].
  apply sorted_perm.
Qed.

Lemma search_all_is_permutation_witness :
  exists res : list (string * float),
    search [1%float] 5 dot_product_similarity db_ab = (inr res, db_ab) /\
    Permutation res
      (map (fun kv => (fst kv, dot_product_similarity [1%float] (snd kv)))
           (vectors db_ab)).
Proof.
  apply (@search_all_is_permutation db_ab [1%float] 5 dot_product_similarity).
  simpl. lia.
Defined.

(** Property X11.
    When embedding the query raises, [search_by_text] and
    [search_by_text_with_token_budget] raise the same exception and the
    store is not searched. *)
Theorem query_embedding_error_propagates (db : VectorDatabase) (qt : string)
    (k : Z) (dm : metric) (as_text : bool) (count : string -> Z)
    (mx rs : Z) (e : exn) :
  get_embedding (embedding_model db) qt = inl e ->
  search_by_text qt k dm as_text db = (inl e, db) /\
  search_by_text_with_token_budget qt k count mx dm rs db = (inl e, db).
Proof.
  intros Hq. split; [apply search_by_text_raises, Hq|].
  unfold search_by_text_with_token_budget, bind.
  rewrite (search_by_text_raises db qt k dm false Hq). reflexivity.
Qed.

Lemma query_embedding_error_propagates_witness :
  let failing := mkEmbeddingModel (fun _ => inl ProviderError)
                                  (fun _ => inl ProviderError) in
  let db := mkVectorDatabase [("a", [1%float])] failing in
  search_by_text "q" 3 dot_product_similarity true db
    = (inl ProviderError, db) /\
  search_by_text_with_token_budget "q" 3 count_chars 10
      dot_product_similarity 0 db
    = (inl ProviderError, db).
Proof.
  cbv zeta.
  apply (@query_embedding_error_propagates
           (mkVectorDatabase [("a", [1%float])]
              (mkEmbeddingModel (fun _ => inl ProviderError)
                                (fun _ => inl ProviderError)))
           "q" 3 dot_product_similarity true count_chars 10 0 ProviderError).
  reflexivity.
Defined.

End RankingExtra.

(** ** VectorDatabase: the bulk build *)

Module BuildExtra.

Import PyFacts VectorDB SearchFacts DictFacts StoreSpec Fixtures.

Local Open Scope string_scope.

Lemma insert_all_app (p1 p2 : list (string * vector)) (d : dict vector) :
  insert_all (p1 ++ p2) d = insert_all p2 (insert_all p1 d).
Proof. unfold insert_all. apply fold_left_app. Qed.

Lemma insert_all_get_other (pairs : list (string * vector))
    (d : dict vector) (key : string) :
  ~ In key (map fst pairs) ->
  dict_get key (insert_all pairs d) = dict_get key d.
Proof.
  revert d. induction pairs as [|[t e] pairs IH]; intros d Hnot;
    [reflexivity|].
  simpl in Hnot. cbn [insert_all fold_left fst snd].
  fold (insert_all pairs (dict_set t e d)).
  rewrite IH by tauto. apply dict_get_set_other. intros ->. tauto.
Qed.

Lemma insert_all_NoDup (pairs : list (string * vector)) (d : dict vector) :
  NoDup (map fst d) -> NoDup (map fst (insert_all pairs d)).
Proof.
  revert d. induction pairs as [|[t e] pairs IH]; intros d Hnd; [exact Hnd|].
  cbn [insert_all fold_left fst snd].
  fold (insert_all pairs (dict_set t e d)).
  apply IH, dict_set_NoDup, Hnd.
Qed.

Lemma combine_app_same {A B : Type} (l1 l2 : list A) (m1 m2 : list B) :
  List.length l1 = List.length m1 ->
  combine (l1 ++ l2) (m1 ++ m2) = (combine l1 m1 ++ combine l2 m2)%list.
Proof.
  revert m1. induction l1 as [|x l1 IH]; intros [|y m1] H; try discriminate.
  - reflexivity.
  - simpl. f_equal. apply IH. simpl in H. lia.
Qed.

Lemma in_combine_fst {A B : Type} (l : list A) (m : list B) (x : A) :
  In x (map fst (combine l m)) -> In x l.
Proof.
  intros H. apply in_map_iff in H as ([a b] & <- & H).
  simpl. eapply in_combine_l, H.
Qed.

(** The three ways [abuild_from_list] ends. *)
Lemma abuild_run (db : VectorDatabase) (texts : list string) :
  abuild_from_list texts db =
    match async_get_embeddings (embedding_model db) texts with
    | inl e => (inl e, db)
    | inr embs =>
        let db' :=
          mkVectorDatabase (insert_all (combine texts embs) (vectors db))
                           (embedding_model db) in
        if Nat.eqb (List.length texts) (List.length embs)
        then (inr db', db') else (inl ValueError, db')
    end.
Proof.
  unfold abuild_from_list, bind, read_model.
  destruct (async_get_embeddings (embedding_model db) texts) as [e|embs];
    [reflexivity|].
  unfold call, ret. rewrite for_zip_strict_insert.
  destruct (Nat.eqb (List.length texts) (List.length embs)); reflexivity.
Qed.

(** Property X12.
    When the client returns as many vectors as texts,
    [abuild_from_list] returns the object, the embedding model is the
    same, and each text retrieves the vector at its position, the last
    position counting when a text occurs more than once. *)
Theorem abuild_success_retrieves (db : VectorDatabase)
    (texts : list string) (embs : list vector) :
  async_get_embeddings (embedding_model db) texts = inr embs ->
  List.length embs = List.length texts ->
  exists db' : VectorDatabase,
    abuild_from_list texts db = (inr db', db') /\
    embedding_model db' = embedding_model db /\
    forall (ts1 ts2 : list string) (es1 es2 : list vector)
           (t : string) (e : vector),
      texts = (ts1 ++ t :: ts2)%list ->
      embs = (es1 ++ e :: es2)%list ->
      List.length ts1 = List.length es1 ->
      ~ In t ts2 ->
      retrieve_from_key t db' = (inr (Some e), db').
Proof.
  intros Hemb Hlen. rewrite abuild_run, Hemb. cbv zeta.
  rewrite (proj2 (Nat.eqb_eq _ _) (eq_sym Hlen)).
  eexists. split; [reflexivity|]. split; [reflexivity|].
  intros ts1 ts2 es1 es2 t e -> -> Hl Hnot.
  unfold retrieve_from_key, bind, read_vectors, ret.
  cbn [vectors]. rewrite combine_app_same by exact Hl.
  rewrite insert_all_app. cbn [combine].
  change (insert_all ((t, e) :: combine ts2 es2)
            (insert_all (combine ts1 es1) (vectors db)))
    with (insert_all (combine ts2 es2)
            (dict_set t e (insert_all (combine ts1 es1) (vectors db)))).
  rewrite insert_all_get_other.
  - rewrite dict_get_set_same. reflexivity.
  - intros H. apply Hnot. eapply in_combine_fst, H.
Qed.

Lemma abuild_success_retrieves_witness :
  exists db' : VectorDatabase,
    abuild_from_list ["x"; "y"] (init unit_model) = (inr db', db') /\
    retrieve_from_key "y" db' = (inr (Some [1%float]), db').
Proof.
  destruct (@abuild_success_retrieves (init unit_model) ["x"; "y"]
              [[1%float]; [1%float]] eq_refl eq_refl) as (db' & Hrun & _ & Hget).
  exists db'. split; [exact Hrun|].
  apply (Hget ["x"] [] [[1%float]] [] "y" [1%float]); try reflexivity.
  intros [].
Defined.

(** Property X13.
    When the batched call of the client raises, [abuild_from_list]
    raises the same exception and the store is as it was. *)
Theorem abuild_provider_error (db : VectorDatabase) (texts : list string)
    (e : exn) :
  async_get_embeddings (embedding_model db) texts = inl e ->
  abuild_from_list texts db = (inl e, db).
Proof.
  intros Hemb. rewrite abuild_run, Hemb. reflexivity.
Qed.

Lemma abuild_provider_error_witness :
  abuild_from_list ["x"]
    (mkVectorDatabase [("a", [1%float])]
       (mkEmbeddingModel (fun _ => inl ProviderError)
                         (fun _ => inl ProviderError)))
  = (inl ProviderError,
     mkVectorDatabase [("a", [1%float])]
       (mkEmbeddingModel (fun _ => inl ProviderError)
                         (fun _ => inl ProviderError))).
Proof.
  apply abuild_provider_error. reflexivity.
Defined.

(** Property X14.
    However [abuild_from_list] ends, a key that is not one of the texts
    retrieves what it retrieved before, and distinct keys stay
    distinct. *)
Theorem abuild_frame (db : VectorDatabase) (texts : list string) :
  (forall key : string, ~ In key texts ->
     fst (retrieve_from_key key (snd (abuild_from_list texts db)))
       = fst (retrieve_from_key key db)) /\
  (NoDup (map fst (vectors db)) ->
     NoDup (map fst (vectors (snd (abuild_from_list texts db))))).
Proof.
  rewrite abuild_run.
  destruct (async_get_embeddings (embedding_model db) texts) as [e|embs].
  - split; [reflexivity | auto].
  - cbv zeta.
    assert (Hsnd : forall A (x y : A * VectorDatabase) (b : bool),
              snd x = snd y -> snd (if b then x else y) = snd x)
      by (intros A x y [] H; congruence).
    rewrite Hsnd by reflexivity. cbn [snd].
    split.
    + intros key Hnot. unfold retrieve_from_key, bind, read_vectors, ret.
      cbn [fst vectors]. rewrite insert_all_get_other; [reflexivity|].
      intros H. apply Hnot. eapply in_combine_fst, H.
    + intros Hnd. cbn [vectors]. apply insert_all_NoDup, Hnd.
Qed.

Lemma abuild_frame_witness :
  fst (retrieve_from_key "a" (snd (abuild_from_list ["x"; "y"] db_ab)))
    = fst (retrieve_from_key "a" db_ab).
Proof.
  apply (proj1 (abuild_frame db_ab ["x"; "y"])).
  simpl. intuition discriminate.
Defined.

End BuildExtra.

(** ** VectorDatabase: more on the token budget *)

Module BudgetExtra.

Import PyFacts VectorDB SearchFacts BudgetFacts BudgetEdgeSpec Fixtures.

Local Open Scope string_scope.

Lemma total_tokens_firstn_le (count : string -> Z) (n : nat)
    (l : list string) :
  (forall t, 0 <= count t)%Z ->
  (total_tokens count (firstn n l) <= total_tokens count l)%Z.
Proof.
  intros Hc. revert n. induction l as [|t l IH]; intros n.
  - rewrite firstn_nil. lia.
  - destruct n as [|n]; cbn [firstn].
    + pose proof (@total_tokens_nonneg count (t :: l) Hc).
      unfold total_tokens at 1. simpl. lia.
    + rewrite !total_tokens_cons. specialize (IH n). lia.
Qed.

(** Property X15.
    When the counter gives no negative count and the whole ranked list
    fits in the budget, every ranked text is selected. *)
Theorem budget_selects_all_when_fits (db : VectorDatabase) (qt : string)
    (k : Z) (count : string -> Z) (mx : Z) (dm : metric) (rs : Z)
    (qv : vector) (ranked : list (string * float)) :
  get_embedding (embedding_model db) qt = inr qv ->
  search qv k dm db = (inr ranked, db) ->
  (forall t, 0 <= count t)%Z ->
  (total_tokens count (map fst ranked) <= Z.max 0 (mx - rs))%Z ->
  search_by_text_with_token_budget qt k count mx dm rs db =
    (inr (map fst ranked, total_tokens count (map fst ranked), ranked), db).
Proof.
  intros Hq Hsearch Hc Hfit.
  destruct (budget_run db qt k count mx dm rs Hq)
    as (ranked' & n & Hsearch' & Hrun & Hn & _ & Hstop).
  rewrite Hsearch in Hsearch'. injection Hsearch' as <-.
  destruct (Nat.eq_dec n (List.length ranked)) as [->|Hne].
  - rewrite firstn_all in Hrun. exact Hrun.
  - exfalso. specialize (Hstop ltac:(lia)).
    pose proof (@total_tokens_firstn_le count (S n) (map fst ranked) Hc) as H.
    rewrite firstn_map in H. lia.
Qed.

Lemma budget_selects_all_when_fits_witness :
  search_by_text_with_token_budget "q" 1 count_chars 10
      dot_product_similarity 0 db_blank
    = (inr ([""], 0%Z, [("", dot_product_similarity [1%float] [1%float])]),
       db_blank).
Proof.
  apply (@budget_selects_all_when_fits db_blank "q" 1 count_chars 10
           dot_product_similarity 0 [1%float]
           [("", dot_product_similarity [1%float] [1%float])]).
  - reflexivity.
  - reflexivity.
  - intros t. unfold count_chars. lia.
  - unfold total_tokens. simpl. lia.
Defined.

(** Property X16.
    A larger budget only adds texts at the end of the selection: the
    selection for a budget is a prefix of the selection for any budget
    at least as large. *)
Theorem budget_selection_grows_with_budget (db : VectorDatabase)
    (qt : string) (k : Z) (count : string -> Z) (mx rs mx' rs' : Z)
    (dm : metric) (qv : vector) :
  get_embedding (embedding_model db) qt = inr qv ->
  (mx - rs <= mx' - rs')%Z ->
  exists (sel sel' : list string) (used used' : Z)
         (ranked : list (string * float)) (n : nat),
    search_by_text_with_token_budget qt k count mx dm rs db =
      (inr (sel, used, ranked), db) /\
    search_by_text_with_token_budget qt k count mx' dm rs' db =
      (inr (sel', used', ranked), db) /\
    sel = firstn n sel'.
Proof.
  intros Hq Hle.
  destruct (budget_run db qt k count mx dm rs Hq)
    as (ranked & n & Hsearch & Hrun & Hn & Hfits & Hstop).
  destruct (budget_run db qt k count mx' dm rs' Hq)
    as (ranked' & n' & Hsearch' & Hrun' & Hn' & Hfits' & Hstop').
  rewrite Hsearch in Hsearch'. injection Hsearch' as <-.
  exists (map fst (firstn n ranked)), (map fst (firstn n' ranked)),
    (total_tokens count (map fst (firstn n ranked))),
    (total_tokens count (map fst (firstn n' ranked))), ranked, n.
  split; [exact Hrun|]. split; [exact Hrun'|].
  assert (Hnn : n <= n').
  { destruct (le_lt_dec n n') as [H|H]; [exact H|]. exfalso.
    specialize (Hstop' ltac:(lia)).
    specialize (Hfits (S n') ltac:(lia)). lia. }
  rewrite firstn_map, firstn_firstn, Nat.min_l by exact Hnn.
  reflexivity.
Qed.

Lemma budget_selection_grows_with_budget_witness :
  exists (sel sel' : list string) (used used' : Z)
         (ranked : list (string * float)) (n : nat),
    search_by_text_with_token_budget "q" 2 count_chars 1
        dot_product_similarity 0 db_ab = (inr (sel, used, ranked), db_ab) /\
    search_by_text_with_token_budget "q" 2 count_chars 5
        dot_product_similarity 1 db_ab = (inr (sel', used', ranked), db_ab) /\
    sel = firstn n sel'.
Proof.
  apply (@budget_selection_grows_with_budget db_ab "q" 2 count_chars 1 0 5 1
           dot_product_similarity [1%float]).
  - reflexivity.
  - lia.
Defined.

End BudgetExtra.

(** ** More on strings and on the chunks of [split] *)

Module StringFacts.

Local Open Scope string_scope.

Lemma substring_empty (a m : nat) : substring a m "" = "".
Proof. destruct a, m; reflexivity. Qed.

Lemma substring_zero_len (a : nat) (s : string) : substring a 0 s = "".
Proof.
  revert a. induction s as [|c s IH]; intros [|a]; try reflexivity.
  simpl. apply IH.
Qed.

(** Two pieces that touch make one piece. *)
Lemma substring_adjacent (s : string) (a m k : nat) :
  substring a m s ++ substring (a + m) k s = substring a (m + k) s.
Proof.
  revert a m k. induction s as [|c s IH]; intros a m k.
  - rewrite !substring_empty. reflexivity.
  - destruct a as [|a].
    + destruct m as [|m]; [reflexivity|].
      cbn [Nat.add substring append]. f_equal. apply (IH 0).
    + cbn [Nat.add substring]. apply IH.
Qed.

(** A piece that reaches the end of the text is the rest of the text. *)
Lemma substring_whole (s : string) (m : nat) :
  String.length s <= m -> substring 0 m s = s.
Proof.
  revert m. induction s as [|c s IH]; intros m Hm.
  - apply substring_empty.
  - destruct m as [|m]; [simpl in Hm; lia|].
    simpl. f_equal. apply IH. simpl in Hm. lia.
Qed.

(** The length asked of a piece may be cut at the end of the text. *)
Lemma substring_clamp (s : string) (a m : nat) :
  substring a (Nat.min m (String.length s - a)) s = substring a m s.
Proof.
  revert a m. induction s as [|c s IH]; intros a m.
  - rewrite !substring_empty. reflexivity.
  - destruct a as [|a].
    + destruct m as [|m]; [reflexivity|].
      cbn [String.length Nat.sub Nat.min substring]. f_equal.
      specialize (IH 0 m). rewrite Nat.sub_0_r in IH. exact IH.
    + cbn [String.length Nat.sub substring]. apply IH.
Qed.

(** A piece of a piece is a piece of the text. *)
Lemma substring_substring (s : string) (a n b m : nat) :
  a + n <= m ->
  substring a n (substring b m s) = substring (a + b) n s.
Proof.
  revert a n b m. induction s as [|c s IH]; intros a n b m Hle.
  - rewrite !substring_empty. reflexivity.
  - destruct b as [|b].
    + rewrite Nat.add_0_r. destruct m as [|m].
      * assert (a = 0) by lia. assert (n = 0) by lia. subst.
        rewrite !substring_zero_len. reflexivity.
      * cbn [substring]. destruct a as [|a].
        -- destruct n as [|n]; [reflexivity|].
           cbn [substring]. f_equal.
           specialize (IH 0 n 0 m ltac:(lia)). exact IH.
        -- cbn [substring].
           specialize (IH a n 0 m ltac:(lia)).
           rewrite Nat.add_0_r in IH. exact IH.
    + replace (a + S b) with (S (a + b)) by lia. cbn [substring].
      apply IH. exact Hle.
Qed.

Lemma join_app (l1 l2 : list string) :
  TextUtils.join (l1 ++ l2) = TextUtils.join l1 ++ TextUtils.join l2.
Proof.
  induction l1 as [|x l1 IH]; [reflexivity|].
  simpl. rewrite IH. clear IH.
  generalize (TextUtils.join l1) (TextUtils.join l2). intros u w.
  induction x as [|c x IHx]; [reflexivity|]. simpl. rewrite IHx. reflexivity.
Qed.

Lemma append_empty_r (s : string) : s ++ "" = s.
Proof. induction s as [|c s IH]; [reflexivity|]. simpl. rewrite IH. reflexivity. Qed.

(** Pieces of one width, cut one after the other from the start, put
    end to end. *)
Lemma join_strides (s : string) (w n : nat) :
  TextUtils.join (map (fun c => substring (c * w) w s) (seq 0 n))
    = substring 0 (n * w) s.
Proof.
  induction n as [|n IH].
  - simpl. rewrite substring_zero_len. reflexivity.
  - rewrite seq_S, map_app, join_app, IH. cbn [map TextUtils.join fold_right].
    rewrite append_empty_r.
    replace (S n * w) with (n * w + w) by lia.
    rewrite <- substring_adjacent. reflexivity.
Qed.

End StringFacts.

Module SplitterExtra.

Import PyFacts TextUtils SplitterFacts StringFacts.

Local Open Scope string_scope.

Lemma range_from_seq (n : nat) (start step : Z) :
  range_from n start step
    = map (fun c => (start + Z.of_nat c * step)%Z) (seq 0 n).
Proof.
  revert start. induction n as [|n IH]; intros start; [reflexivity|].
  cbn [range_from seq map]. f_equal; [simpl; ring|].
  rewrite IH, <- seq_shift, map_map. apply map_ext. intros c.
  rewrite Nat2Z.inj_succ. ring.
Qed.

(** For a positive chunk size and a positive stride, the chunk of index
    [c] is the piece of the text of [chunk_size] characters, or what is
    left of them, from the offset [c * stride]. *)
Lemma split_as_substrings (sp : CharacterTextSplitter) (text : string) :
  (chunk_size sp > chunk_overlap sp)%Z -> (0 < chunk_size sp)%Z ->
  split sp text =
    inr (map (fun c =>
                substring (c * Z.to_nat (chunk_size sp - chunk_overlap sp))
                          (Z.to_nat (chunk_size sp)) text)
             (seq 0 (range_count (Z.of_nat (String.length text))
                                 (chunk_size sp - chunk_overlap sp)))).
Proof.
  intros Hgt Hsize. rewrite split_pos_stride by exact Hgt. f_equal.
  set (step := (chunk_size sp - chunk_overlap sp)%Z).
  set (len := String.length text).
  assert (Hstep : (0 < step)%Z) by (unfold step; lia).
  destruct (@range_count_spec (Z.of_nat len) step ltac:(lia) Hstep)
    as [Hlo _].
  rewrite range_from_seq, map_map. apply map_ext_in.
  intros c Hc. apply in_seq in Hc. cbn [Z.add].
  assert (Hcs : (0 <= Z.of_nat c * step < Z.of_nat len)%Z).
  { split; [apply Z.mul_nonneg_nonneg; lia|].
    apply Z.le_lt_trans with (2 := Hlo).
    apply Z.mul_le_mono_nonneg_r; lia. }
  unfold str_slice. fold len.
  rewrite !slice_bound_nonneg by lia.
  assert (Ha : Z.to_nat (Z.of_nat c * step) = c * Z.to_nat step)
    by (rewrite Z2Nat.inj_mul, Nat2Z.id by lia; reflexivity).
  rewrite Ha.
  assert (Hb : Z.to_nat (Z.of_nat c * step + chunk_size sp)
               = c * Z.to_nat step + Z.to_nat (chunk_size sp))
    by (rewrite Z2Nat.inj_add, Ha by lia; reflexivity).
  rewrite Hb.
  rewrite <- (substring_clamp text (c * Z.to_nat step)
                (Z.to_nat (chunk_size sp))).
  fold len.
  assert (Hlt : c * Z.to_nat step < len) by (rewrite <- Ha; lia).
  f_equal; lia.
Qed.

(** Property X17.
    The number of chunks is the number of strides needed to reach the
    end of the text, and every chunk of index [c] has
    [min(chunk_size, len(text) - c * stride)] characters: no chunk is
    empty and none is longer than [chunk_size]. *)
Theorem split_chunk_count_and_lengths (size overlap : Z)
    (sp : CharacterTextSplitter) (text : string) :
  init size overlap = inr sp ->
  (0 < size)%Z ->
  exists chunks : list string,
    split sp text = inr chunks /\
    (Z.of_nat (String.length text)
       <= Z.of_nat (List.length chunks) * (size - overlap))%Z /\
    ((Z.of_nat (List.length chunks) - 1) * (size - overlap)
       < Z.of_nat (String.length text))%Z /\
    forall (c : nat) (chunk : string),
      nth_error chunks c = Some chunk ->
      Z.of_nat (String.length chunk)
        = Z.min size (Z.of_nat (String.length text)
                      - Z.of_nat c * (size - overlap)) /\
      (1 <= Z.of_nat (String.length chunk) <= size)%Z.
Proof.
  intros Hinit Hsize. apply init_inv in Hinit as [Hgt ->].
  rewrite split_pos_stride by (simpl; lia). cbn [chunk_size chunk_overlap].
  set (step := (size - overlap)%Z).
  set (len := Z.of_nat (String.length text)).
  assert (Hstep : (0 < step)%Z) by (unfold step; lia).
  destruct (@range_count_spec len step ltac:(unfold len; lia) Hstep)
    as [Hlo Hup].
  eexists. split; [reflexivity|].
  rewrite length_map, length_range_from.
  split; [exact Hup|]. split; [exact Hlo|].
  intros c chunk Hnth.
  assert (Hc : c < range_count len step).
  { assert (H : nth_error
                  (map (fun i => str_slice text i (i + size))
                       (range_from (range_count len step) 0 step)) c
                <> None) by congruence.
    apply nth_error_Some in H.
    rewrite length_map, length_range_from in H. exact H. }
  rewrite nth_error_map, nth_error_range_from in Hnth by exact Hc.
  simpl in Hnth. injection Hnth as <-.
  assert (Hcs : (0 <= Z.of_nat c * step < len)%Z).
  { split; [apply Z.mul_nonneg_nonneg; lia|].
    apply Z.le_lt_trans with (2 := Hlo).
    apply Z.mul_le_mono_nonneg_r; lia. }
  destruct (@str_slice_inside text (Z.of_nat c * step) size
              ltac:(unfold len in Hcs; lia) Hsize) as [Hl _].
  split; [exact Hl|]. rewrite Hl. unfold len in *. lia.
Qed.

Lemma split_chunk_count_and_lengths_witness :
  exists chunks : list string,
    split (mkSplitter 4 1) "abcdefgh" = inr chunks /\
    (Z.of_nat (String.length "abcdefgh")
       <= Z.of_nat (List.length chunks) * (4 - 1))%Z.
Proof.
  destruct (@split_chunk_count_and_lengths 4 1 (mkSplitter 4 1) "abcdefgh"
              eq_refl ltac:(lia)) as (chunks & Hs & Hup & _).
  exists chunks. split; assumption.
Defined.

(** Property X18.
    A text that is not empty and no longer than the stride comes back
    whole, as the only chunk, when the overlap is not negative. *)
Theorem split_short_text (size overlap : Z) (sp : CharacterTextSplitter)
    (text : string) :
  init size overlap = inr sp ->
  (0 <= overlap)%Z ->
  (0 < Z.of_nat (String.length text) <= size - overlap)%Z ->
  split sp text = inr [text].
Proof.
  intros Hinit Hov Hlen. apply init_inv in Hinit as [Hgt ->].
  rewrite split_as_substrings by (simpl; lia).
  cbn [chunk_size chunk_overlap].
  assert (Hn : range_count (Z.of_nat (String.length text)) (size - overlap)
               = 1).
  { destruct (@range_count_spec (Z.of_nat (String.length text))
                (size - overlap) ltac:(lia) ltac:(lia)) as [Hlo Hup].
    set (n := range_count _ _) in *. nia. }
  rewrite Hn. cbn [seq map Nat.mul].
  rewrite substring_whole by lia. reflexivity.
Qed.

Lemma split_short_text_witness :
  split (mkSplitter 1000 200) "King Lear" = inr ["King Lear"].
Proof.
  apply (@split_short_text 1000 200 (mkSplitter 1000 200) "King Lear").
  - reflexivity.
  - lia.
  - simpl. lia.
Defined.

(** Property X19.
    Round trip: when the overlap is not negative, the first stride of
    every chunk, what a chunk holds before the next chunk starts, put
    end to end, gives the text back. *)
Theorem split_strides_rebuild_text (size overlap : Z)
    (sp : CharacterTextSplitter) (text : string) :
  init size overlap = inr sp ->
  (0 <= overlap)%Z ->
  exists chunks : list string,
    split sp text = inr chunks /\
    join (map (stride_of (size - overlap)) chunks) = text.
Proof.
  intros Hinit Hov. apply init_inv in Hinit as [Hgt ->].
  rewrite split_as_substrings by (simpl; lia).
  cbn [chunk_size chunk_overlap].
  eexists. split; [reflexivity|].
  set (step := (size - overlap)%Z).
  set (n := range_count (Z.of_nat (String.length text)) step).
  assert (Hstep : (0 < step)%Z) by (unfold step; lia).
  destruct (@range_count_spec (Z.of_nat (String.length text)) step
              ltac:(lia) Hstep) as [_ Hup]. fold n in Hup.
  rewrite map_map.
  rewrite (map_ext _ (fun c => substring (c * Z.to_nat step)
                                 (Z.to_nat step) text)).
  - rewrite join_strides. apply substring_whole.
    apply Nat2Z.inj_le. rewrite Nat2Z.inj_mul, Z2Nat.id by lia. exact Hup.
  - intros c. unfold stride_of, str_slice.
    rewrite !slice_bound_nonneg by lia.
    cbn [Z.to_nat Nat.min Nat.sub]. rewrite Nat.sub_0_r.
    rewrite length_substring.
    set (w := Z.to_nat step). set (sz := Z.to_nat size).
    set (len := String.length text).
    assert (Hw : w <= sz) by (unfold w, sz, step; lia).
    rewrite substring_substring by lia. cbn [Nat.add].
    rewrite <- (substring_clamp text (c * w) w). fold len.
    f_equal. lia.
Qed.

Lemma split_strides_rebuild_text_witness :
  exists chunks : list string,
    split (mkSplitter 4 1) "abcdefgh" = inr chunks /\
    join (map (stride_of (4 - 1)) chunks) = "abcdefgh".
Proof.
  apply (@split_strides_rebuild_text 4 1 (mkSplitter 4 1) "abcdefgh").
  - reflexivity.
  - lia.
Defined.

(** Property X20.
    Overlap: when the overlap is not negative, what a chunk holds after
    its first stride is what the next chunk starts with, over
    [chunk_overlap] characters. *)
Theorem split_consecutive_chunks_overlap (size overlap : Z)
    (sp : CharacterTextSplitter) (text : string) (chunks : list string)
    (c : nat) (chunk next : string) :
  init size overlap = inr sp ->
  (0 <= overlap)%Z ->
  split sp text = inr chunks ->
  nth_error chunks c = Some chunk ->
  nth_error chunks (S c) = Some next ->
  substring (Z.to_nat (size - overlap)) (Z.to_nat overlap) chunk
    = substring 0 (Z.to_nat overlap) next.
Proof.
  intros Hinit Hov Hsplit Hc Hn. apply init_inv in Hinit as [Hgt ->].
  rewrite split_as_substrings in Hsplit by (simpl; lia).
  cbn [chunk_size chunk_overlap] in Hsplit. injection Hsplit as <-.
  set (n := range_count _ _) in *.
  assert (Hcn : S c < n).
  { assert (H : nth_error
                  (map (fun c => substring (c * Z.to_nat (size - overlap))
                                   (Z.to_nat size) text) (seq 0 n)) (S c)
                <> None) by congruence.
    apply nth_error_Some in H.
    rewrite length_map, length_seq in H. exact H. }
  rewrite nth_error_map, nth_error_seq in Hc, Hn.
  destruct (Nat.ltb_spec c n) as [_|]; [|lia].
  destruct (Nat.ltb_spec (S c) n) as [_|]; [|lia].
  cbn [option_map Nat.add] in Hc, Hn.
  injection Hc as <-. injection Hn as <-.
  rewrite !substring_substring by lia.
  f_equal; lia.
Qed.

Lemma split_consecutive_chunks_overlap_witness :
  substring (Z.to_nat (4 - 1)) (Z.to_nat 1) "abcd"
    = substring 0 (Z.to_nat 1) "defg".
Proof.
  apply (@split_consecutive_chunks_overlap 4 1 (mkSplitter 4 1) "abcdefgh"
           ["abcd"; "defg"; "gh"] 0 "abcd" "defg"); try reflexivity.
  lia.
Defined.

End SplitterExtra.

Module SplitTextsExtra.

Import PyFacts TextUtils SplitterFacts.

Local Open Scope string_scope.

Lemma split_total (sp : CharacterTextSplitter) (text : string) :
  (chunk_size sp > chunk_overlap sp)%Z ->
  exists chunks, split sp text = inr chunks.
Proof.
  intros H. rewrite split_pos_stride by exact H. eexists. reflexivity.
Qed.

(** Property X21.
    For a splitter that [__init__] accepts, [split_texts] raises nothing
    and returns the chunks of each text, text after text. *)
Theorem split_texts_flattens (size overlap : Z) (sp : CharacterTextSplitter)
    (texts : list string) :
  init size overlap = inr sp ->
  exists per_text : list (list string),
    Forall2 (fun text chunks => split sp text = inr chunks) texts per_text /\
    split_texts sp texts = inr (List.concat per_text).
Proof.
  intros Hinit. apply init_inv in Hinit as [Hgt ->].
  induction texts as [|text texts (per & Hall & Hrun)].
  - exists []. split; [constructor | reflexivity].
  - destruct (@split_total (mkSplitter size overlap) text
                ltac:(simpl; lia)) as [chunks Hs].
    exists (chunks :: per). split; [constructor; assumption|].
    cbn [split_texts List.concat]. rewrite Hs, Hrun. reflexivity.
Qed.

Lemma split_texts_flattens_witness :
  exists per_text : list (list string),
    Forall2 (fun text chunks => split (mkSplitter 4 1) text = inr chunks)
            ["abcdefgh"; ""; "xy"] per_text /\
    split_texts (mkSplitter 4 1) ["abcdefgh"; ""; "xy"]
      = inr (List.concat per_text).
Proof.
  apply (@split_texts_flattens 4 1 (mkSplitter 4 1) ["abcdefgh"; ""; "xy"]).
  reflexivity.
Defined.

Example split_texts_three :
  split_texts (mkSplitter 4 1) ["abcdefgh"; ""; "xy"]
    = inr ["abcd"; "defg"; "gh"; "xy"].
Proof. reflexivity. Qed.

(** Property X22.
    [split_texts] of two lists of texts one after the other is the
    chunks of the first list followed by the chunks of the second. *)
Theorem split_texts_app (size overlap : Z) (sp : CharacterTextSplitter)
    (texts more : list string) :
  init size overlap = inr sp ->
  exists chunks chunks' : list string,
    split_texts sp texts = inr chunks /\
    split_texts sp more = inr chunks' /\
    split_texts sp (texts ++ more) = inr (chunks ++ chunks')%list.
Proof.
  intros Hinit. apply init_inv in Hinit as [Hgt ->].
  assert (Htot : forall l, exists cs,
             split_texts (mkSplitter size overlap) l = inr cs).
  { induction l as [|t l [cs Hcs]]; [exists []; reflexivity|].
    destruct (@split_total (mkSplitter size overlap) t
                ltac:(simpl; lia)) as [c Hc].
    exists (c ++ cs)%list. cbn [split_texts]. rewrite Hc, Hcs. reflexivity. }
  destruct (Htot more) as [chunks' Hmore].
  induction texts as [|t texts (chunks & chs & Ht & Hm & Happ)].
  - exists [], chunks'. auto.
  - destruct (@split_total (mkSplitter size overlap) t
                ltac:(simpl; lia)) as [c Hc].
    rewrite Hmore in Hm. injection Hm as <-.
    exists (c ++ chunks)%list, chunks'.
    rewrite <- app_comm_cons. cbn [split_texts].
    rewrite Hc, Ht, Happ, app_assoc. auto.
Qed.

Lemma split_texts_app_witness :
  exists chunks chunks' : list string,
    split_texts (mkSplitter 4 1) ["abcdefgh"] = inr chunks /\
    split_texts (mkSplitter 4 1) ["xy"] = inr chunks' /\
    split_texts (mkSplitter 4 1) (["abcdefgh"] ++ ["xy"])
      = inr (chunks ++ chunks')%list.
Proof.
  apply (@split_texts_app 4 1 (mkSplitter 4 1) ["abcdefgh"] ["xy"]).
  reflexivity.
Defined.

End SplitTextsExtra.

(** ** TokenCounter *)

Module TokenCounterExtra.

Import TextUtils.

Local Open Scope string_scope.

Lemma count_loaded (mname : string) (enc : Encoding) (text : string) :
  exists n : Z,
    count (mkTokenCounter mname (Some enc)) text = Some n /\ (0 <= n)%Z.
Proof.
  unfold count. cbn [_encoding].
  destruct (encode enc text) as [e|tokens]; eexists; split;
    try reflexivity; lia.
Qed.

Lemma count_messages_from_acc (self : TokenCounter)
    (messages : list (dict string)) (total : Z) :
  count_messages_from self messages total =
    match count_messages_from self messages 0 with
    | inl e => inl e
    | inr n => inr (total + n)%Z
    end.
Proof.
  revert total. induction messages as [|m rest IH]; intros total.
  - simpl. f_equal. lia.
  - cbn [count_messages_from].
    destruct (count self _) as [n|]; [|reflexivity].
    rewrite (IH (total + n)%Z), (IH (0 + n)%Z).
    destruct (count_messages_from self rest 0); [reflexivity|].
    f_equal. lia.
Qed.

Lemma count_messages_loaded (mname : string) (enc : Encoding)
    (messages : list (dict string)) :
  exists total : Z,
    count_messages (mkTokenCounter mname (Some enc)) messages = inr total /\
    (0 <= total)%Z.
Proof.
  induction messages as [|m ms (t & Ht & Hpos)].
  - exists 0%Z. split; [reflexivity | lia].
  - unfold count_messages in *. cbn [count_messages_from].
    destruct (count_loaded mname enc
                (match dict_get "content" m with
                 | Some c => c
                 | None => ""
                 end)) as (n & Hn & Hn0).
    rewrite Hn, count_messages_from_acc, Ht.
    exists (0 + n + t)%Z. split; [reflexivity | lia].
Qed.

(** Property X23.
    With an encoding loaded, [count] returns a number that is not
    negative, never [None]: the number of tokens of the text, and 0 when
    [encode] raises. *)
Theorem count_with_encoding (mname : string) (enc : Encoding)
    (text : string) :
  let self := mkTokenCounter mname (Some enc) in
  exists n : Z,
    count self text = Some n /\ (0 <= n)%Z /\
    (forall tokens, encode enc text = inr tokens ->
       n = Z.of_nat (List.length tokens)) /\
    (forall e, encode enc text = inl e -> n = 0%Z).
Proof.
  cbv zeta. unfold count. cbn [_encoding].
  destruct (encode enc text) as [e|tokens].
  - exists 0%Z. repeat split; try lia. intros tokens H. discriminate.
  - exists (Z.of_nat (List.length tokens)). repeat split; try lia.
    + intros t H. injection H as ->. reflexivity.
    + intros e H. discriminate.
Qed.

(** Property X24.
    With an encoding loaded, [count_messages] raises nothing and its
    total is not negative; one more message adds the count of its
    ["content"], or of the empty text when it has no such field. *)
Theorem count_messages_with_encoding (mname : string) (enc : Encoding)
    (m : dict string) (messages : list (dict string)) :
  let self := mkTokenCounter mname (Some enc) in
  exists total n : Z,
    count_messages self messages = inr total /\ (0 <= total)%Z /\
    count self (match dict_get "content" m with
                | Some c => c
                | None => ""
                end) = Some n /\
    count_messages self (m :: messages) = inr (n + total)%Z.
Proof.
  cbv zeta.
  destruct (count_messages_loaded mname enc messages) as (total & Ht & Hpos).
  destruct (count_loaded mname enc
              (match dict_get "content" m with
               | Some c => c
               | None => ""
               end)) as (n & Hn & _).
  exists total, n. split; [exact Ht|]. split; [exact Hpos|].
  split; [exact Hn|].
  unfold count_messages in *. cbn [count_messages_from].
  rewrite Hn, count_messages_from_acc, Ht. f_equal; lia.
Qed.

(** Property X25.
    [count_messages] raises, and then it is [TypeError], exactly when the
    counter has no encoding and there is a message to count; with no
    encoding and no message it returns 0. *)
Theorem count_messages_raises_iff (self : TokenCounter)
    (messages : list (dict string)) :
  (count_messages self messages = inl TypeError
     <-> _encoding self = None /\ messages <> []) /\
  (_encoding self = None -> count_messages self [] = inr 0%Z).
Proof.
  split; [|reflexivity].
  destruct self as [mname [enc|]]; cbn [_encoding].
  - split; [|intros [H _]; discriminate].
    destruct (count_messages_loaded mname enc messages) as (total & Hrun & _).
    rewrite Hrun. discriminate.
  - destruct messages as [|m rest].
    + split; [discriminate | intros [_ H]; congruence].
    + split; [intros _; split; [reflexivity | discriminate]|].
      intros _. reflexivity.
Qed.

(** Property X26.
    [TokenCounter.__init__] leaves the counter without an encoding only
    when [tiktoken] is absent or refuses ["cl100k_base"]: whenever
    [get_encoding("cl100k_base")] succeeds, an encoding is loaded,
    whatever the model name. *)
Theorem init_loads_fallback_encoding
    (get_encoding : string -> result Encoding) (mname : string)
    (enc : Encoding) :
  get_encoding "cl100k_base" = inr enc ->
  exists enc' : Encoding,
    _encoding (TokenCounter_init (Some get_encoding) mname) = Some enc' /\
    (enc' = enc \/ get_encoding "o200k_base" = inr enc').
Proof.
  intros Hcl. unfold TokenCounter_init.
  destruct (existsb _ _).
  - destruct (get_encoding "o200k_base") as [e|enc'] eqn:Ho.
    + rewrite Hcl. exists enc. split; [reflexivity | left; reflexivity].
    + exists enc'. split; [reflexivity | right; reflexivity].
  - rewrite Hcl. exists enc. split; [reflexivity | left; reflexivity].
Qed.

Lemma init_loads_fallback_encoding_witness :
  exists enc' : Encoding,
    _encoding
      (TokenCounter_init
         (Some (fun name =>
                  if String.eqb name "cl100k_base"
                  then inr (mkEncoding (fun _ => inr [1%Z; 2%Z]))
                  else inl ValueError))
         "gpt-4.1-mini") = Some enc'.
Proof.
  destruct (@init_loads_fallback_encoding
              (fun name =>
                 if String.eqb name "cl100k_base"
                 then inr (mkEncoding (fun _ => inr [1%Z; 2%Z]))
                 else inl ValueError)
              "gpt-4.1-mini" (mkEncoding (fun _ => inr [1%Z; 2%Z])) eq_refl)
    as (enc' & H & _).
  exists enc'. exact H.
Defined.

End TokenCounterExtra.

(** ** More on the similarity metrics *)

Module MetricExtra.

Import FloatFacts MetricFacts.

Local Open Scope float_scope.

Lemma products_comm (a b : vector) :
  map (fun p => fst p * snd p) (combine a b)
    = map (fun p => fst p * snd p) (combine b a).
Proof.
  revert b. induction a as [|x a IH]; intros [|y b]; try reflexivity.
  cbn [combine map fst snd]. rewrite (mul_comm x y), (IH b). reflexivity.
Qed.

Lemma np_dot_comm (a b : vector) : np_dot a b = np_dot b a.
Proof. unfold np_dot. rewrite products_comm. reflexivity. Qed.

Lemma combine_self {A : Type} (l : list A) :
  combine l l = map (fun x => (x, x)) l.
Proof.
  induction l as [|x l IH]; [reflexivity|]. simpl. rewrite IH. reflexivity.
Qed.

Lemma squares_sub_swap (a b : vector) :
  map (fun p => fst p * snd p) (combine (np_sub a b) (np_sub a b))
    = map (fun p => fst p * snd p) (combine (np_sub b a) (np_sub b a)).
Proof.
  rewrite !combine_self, !map_map. cbn [fst snd]. unfold np_sub.
  rewrite !map_map.
  revert b. induction a as [|x a IH]; intros [|y b]; try reflexivity.
  cbn [combine map fst snd]. rewrite (sqr_sub_swap x y), (IH b).
  reflexivity.
Qed.

Lemma abs_sub_swap_all (a b : vector) :
  np_abs (np_sub a b) = np_abs (np_sub b a).
Proof.
  unfold np_abs, np_sub. rewrite !map_map.
  revert b. induction a as [|x a IH]; intros [|y b]; try reflexivity.
  cbn [combine map fst snd]. rewrite (abs_sub_swap x y), (IH b).
  reflexivity.
Qed.

(** Property X27.
    Each of the four metrics gives the same score whichever of the two
    vectors comes first. *)
Theorem metrics_symmetric (m : metric_name) (a b : vector) :
  List.length a = List.length b ->
  DISTANCE_METRICS m a b = DISTANCE_METRICS m b a.
Proof.
  intros _. destruct m; simpl.
  - unfold cosine_similarity. cbv zeta.
    rewrite (np_dot_comm a b), (mul_comm (np_norm a)). reflexivity.
  - unfold euclidean_similarity, np_norm, np_dot.
    rewrite squares_sub_swap. reflexivity.
  - unfold manhattan_similarity. rewrite abs_sub_swap_all. reflexivity.
  - apply np_dot_comm.
Qed.

Lemma metrics_symmetric_witness :
  DISTANCE_METRICS cosine [3; 4] [1; 0]
    = DISTANCE_METRICS cosine [1; 0] [3; 4].
Proof.
  apply (@metrics_symmetric cosine [3; 4] [1; 0]). reflexivity.
Defined.

End MetricExtra.

(** ** Insert, then search *)

Module ComposeExtra.

Import PyFacts SortFacts VectorDB SearchFacts DictFacts RankingExtra Fixtures.

Local Open Scope string_scope.

(** Property X29.
    A key that has just been inserted is among the results of a search
    that asks for at least as many results as there are keys, with the
    score of the inserted vector. *)
Theorem inserted_key_is_found (db : VectorDatabase) (key : string)
    (v q : vector) (k : Z) (dm : metric) :
  (Z.of_nat (List.length (vectors db)) < k)%Z ->
  exists res : list (string * float),
    (insert key v ;;; search q k dm) db = (inr res, snd (insert key v db)) /\
    In (key, dm q v) res.
Proof.
  intros Hk.
  set (db' := snd (insert key v db)).
  assert (Hlen : (Z.of_nat (List.length (vectors db')) <= k)%Z).
  { unfold db', insert, bind, read_vectors, write_vectors. cbn [snd vectors].
    assert (H : List.length (dict_set key v (vectors db))
                <= S (List.length (vectors db))).
    { generalize (vectors db). intros d.
      induction d as [|[k' v'] d IH]; simpl; [lia|].
      destruct (String.eqb key k'); simpl; lia. }
    lia. }
  pose proof (search_whole_ranking db' q dm Hlen) as Hrun.
  eexists. split.
  - unfold bind at 1. unfold insert at 1.
    unfold bind, read_vectors, write_vectors. exact Hrun.
  - apply (Permutation_in (l := map (fun kv => (fst kv, dm q (snd kv)))
                                   (vectors db'))).
    + symmetry. apply sorted_perm.
    + apply in_map_iff. exists (key, v). split; [reflexivity|].
      apply dict_get_Some_In. unfold db', insert, bind, read_vectors,
        write_vectors. cbn [snd vectors]. apply dict_get_set_same.
Qed.

Lemma inserted_key_is_found_witness :
  exists res : list (string * float),
    (insert "c" [3%float] ;;; search [1%float] 3 dot_product_similarity) db_ab
      = (inr res, snd (insert "c" [3%float] db_ab)) /\
    In ("c", dot_product_similarity [1%float] [3%float]) res.
Proof.
  apply (@inserted_key_is_found db_ab "c" [3%float] [1%float] 3
           dot_product_similarity).
  simpl. lia.
Defined.

End ComposeExtra.
